(** * payment_service: orders, payments and the prepaid balance ledger

    A shallow embedding of the Hono application of [src/index.ts] over the
    Drizzle schema of [src/db/schema.ts].

    - A table is the list of its rows in rowid order (the order a [select]
      without [order by] returns them in); [.get()] is the first row of the
      result.
    - Every [await db. ...] of a handler is one storage statement.  D1 runs a
      statement atomically and offers no transaction across statements, so a
      handler is a sequence of statements threaded through the database, and
      an uncaught exception (a violated constraint, a failed [parse]) ends the
      request with status 500 and keeps what earlier statements wrote.
    - What a handler reads from outside the database is an argument: the
      catalog returned by [ofetch], the identifier drawn by
      [crypto.randomUUID()], the clock read by [new Date()].
    - A handler is modelled from the point where its middlewares (the API
      key check, the Firebase token check) have let the request through;
      [uid] is what it reads in [c.var.firebaseIdToken?.uid].
    - The constraints a statement of the handlers can violate are checked:
      the unique [products.name], [(order_id, product_id)] of
      [order_details], [payments.transaction_id] and [users.uid].  The
      foreign keys always hold of what the handlers insert (an order just
      created, a product just upserted, a user just read).
    - Columns of type [int] hold integers, modelled by [Z].  The total of an
      order is computed as the handler does, in the doubles of JavaScript
      ([Number]).  The [parse] of an insert schema is checked where it can
      throw: drizzle-zod bounds an [int] column by the safe integers and
      wants a string for a [text] column.  [transaction_history.user_id] is
      declared [text] in [schema.ts], and both handlers that write the
      history pass the number [user.id]: that [parse] throws.  A row read
      from a table, and a rowid, pass the select schemas as they are, and
      the sum or difference of a balance and an amount is taken exact.
    - The columns [created_at], [updated_at] and [refund_at] are filled by
      the storage defaults and never read; they are left out. *)

From Stdlib Require Import ZArith List String Bool Lia.
Import ListNotations.

Local Open Scope string_scope.
Local Open Scope list_scope.
Local Open Scope Z_scope.

(** ** Column enumerations ([src/db/schema.ts]) *)

Module OrderStatus.
Inductive t := pending | completed | cancelled.
End OrderStatus.

Module PaymentMethod.
Inductive t := cash | prepaid.

Definition eqb (a b : t) : bool :=
  match a, b with
  | cash, cash | prepaid, prepaid => true
  | _, _ => false
  end.
End PaymentMethod.

Module PaymentStatus.
Inductive t := pending | completed | failed.

Definition eqb (a b : t) : bool :=
  match a, b with
  | pending, pending | completed, completed | failed, failed => true
  | _, _ => false
  end.
End PaymentStatus.

Module TransactionType.
Inductive t := charge | payment | refund.
End TransactionType.

(** ** Rows *)

Module Product.
Record t := { id : string; name : string; price : Z }.
End Product.

Module Order.
Record t := { id : Z; totalAmount : Z; status : OrderStatus.t }.
End Order.

Module OrderDetail.
Record t := {
  id : Z; orderId : Z; productId : string;
  name : string; price : Z; quantity : Z }.
End OrderDetail.

Module Payment.
Record t := {
  id : Z; orderId : Z; userId : option Z; transactionId : string;
  amount : Z; method : PaymentMethod.t; status : PaymentStatus.t;
  paidAt : option Z }.
End Payment.

Module User.
Record t := { id : Z; uid : string; balance : Z }.
End User.

Module TransactionHistory.
(** [user_id] is [text("user_id")]. *)
Record t := {
  id : Z; transactionId : option string; userId : string;
  amount : Z; transactionType : TransactionType.t }.
End TransactionHistory.

(** ** The database

    The five [seq_] fields are the [sqlite_sequence] entries of the tables
    declared [AUTOINCREMENT]: the largest rowid each table ever held. *)

Record Db := {
  products : list Product.t;
  orders : list Order.t;
  orderDetails : list OrderDetail.t;
  payments : list Payment.t;
  users : list User.t;
  transactionHistory : list TransactionHistory.t;
  seq_orders : Z;
  seq_orderDetails : Z;
  seq_payments : Z;
  seq_users : Z;
  seq_transactionHistory : Z }.

Definition emptyDb : Db :=
  {| products := []; orders := []; orderDetails := []; payments := [];
     users := []; transactionHistory := [];
     seq_orders := 0; seq_orderDetails := 0; seq_payments := 0;
     seq_users := 0; seq_transactionHistory := 0 |}.

Definition with_products (v : list Product.t) (db : Db) : Db :=
  {| products := v; orders := orders db; orderDetails := orderDetails db;
     payments := payments db; users := users db;
     transactionHistory := transactionHistory db;
     seq_orders := seq_orders db; seq_orderDetails := seq_orderDetails db;
     seq_payments := seq_payments db; seq_users := seq_users db;
     seq_transactionHistory := seq_transactionHistory db |}.

Definition with_orders (v : list Order.t) (s : Z) (db : Db) : Db :=
  {| products := products db; orders := v; orderDetails := orderDetails db;
     payments := payments db; users := users db;
     transactionHistory := transactionHistory db;
     seq_orders := s; seq_orderDetails := seq_orderDetails db;
     seq_payments := seq_payments db; seq_users := seq_users db;
     seq_transactionHistory := seq_transactionHistory db |}.

Definition with_orderDetails (v : list OrderDetail.t) (s : Z) (db : Db) : Db :=
  {| products := products db; orders := orders db; orderDetails := v;
     payments := payments db; users := users db;
     transactionHistory := transactionHistory db;
     seq_orders := seq_orders db; seq_orderDetails := s;
     seq_payments := seq_payments db; seq_users := seq_users db;
     seq_transactionHistory := seq_transactionHistory db |}.

Definition with_payments (v : list Payment.t) (s : Z) (db : Db) : Db :=
  {| products := products db; orders := orders db;
     orderDetails := orderDetails db; payments := v; users := users db;
     transactionHistory := transactionHistory db;
     seq_orders := seq_orders db; seq_orderDetails := seq_orderDetails db;
     seq_payments := s; seq_users := seq_users db;
     seq_transactionHistory := seq_transactionHistory db |}.

Definition with_users (v : list User.t) (s : Z) (db : Db) : Db :=
  {| products := products db; orders := orders db;
     orderDetails := orderDetails db; payments := payments db; users := v;
     transactionHistory := transactionHistory db;
     seq_orders := seq_orders db; seq_orderDetails := seq_orderDetails db;
     seq_payments := seq_payments db; seq_users := s;
     seq_transactionHistory := seq_transactionHistory db |}.

Definition with_transactionHistory
    (v : list TransactionHistory.t) (s : Z) (db : Db) : Db :=
  {| products := products db; orders := orders db;
     orderDetails := orderDetails db; payments := payments db;
     users := users db; transactionHistory := v;
     seq_orders := seq_orders db; seq_orderDetails := seq_orderDetails db;
     seq_payments := seq_payments db; seq_users := seq_users db;
     seq_transactionHistory := s |}.

(** The rowid an [AUTOINCREMENT] table gives its next row: one more than the
    largest rowid the table holds or ever held. *)
Definition max_rowid (ids : list Z) : Z := fold_right Z.max 0 ids.

Definition next_rowid (last : Z) (ids : list Z) : Z :=
  Z.max last (max_rowid ids) + 1.

(** ** Storage statements *)

(** *** products

    [insert(products).values(batch).onConflictDoUpdate({target: products.id,
    set: {name: excluded.name, price: excluded.price}})].  A row whose [id]
    is present overwrites that row's [name] and [price]; another [id] is
    appended.  [name] is declared [unique()]: a row whose name another
    product already carries violates it, and the statement fails as a whole. *)

Definition upsertProduct (rows : list Product.t) (r : Product.t)
  : option (list Product.t) :=
  if existsb (fun p => negb (Product.id p =? Product.id r)%string
                       && (Product.name p =? Product.name r)%string) rows
  then None
  else if existsb (fun p => (Product.id p =? Product.id r)%string) rows
  then Some (map (fun p =>
                    if (Product.id p =? Product.id r)%string
                    then {| Product.id := Product.id p;
                            Product.name := Product.name r;
                            Product.price := Product.price r |}
                    else p) rows)
  else Some (rows ++ [r]).

Fixpoint upsertProductRows (rows : list Product.t) (batch : list Product.t)
  : option (list Product.t) :=
  match batch with
  | [] => Some rows
  | r :: rest =>
      match upsertProduct rows r with
      | None => None
      | Some rows' => upsertProductRows rows' rest
      end
  end.

Definition upsertProducts (batch : list Product.t) (db : Db) : option Db :=
  match upsertProductRows (products db) batch with
  | None => None
  | Some rows => Some (with_products rows db)
  end.

(** *** orders *)

(** [insert(orders).values({totalAmount, status}).returning()]: the new row. *)
Definition insertOrder (totalAmount : Z) (status : OrderStatus.t) (db : Db)
  : Db * Order.t :=
  let row := {| Order.id := next_rowid (seq_orders db) (map Order.id (orders db));
                Order.totalAmount := totalAmount;
                Order.status := status |} in
  (with_orders (orders db ++ [row]) (Order.id row) db, row).

(** [update(orders).set({status}).where(eq(orders.id, id))]. *)
Definition updateOrderStatus (id : Z) (status : OrderStatus.t) (db : Db) : Db :=
  with_orders
    (map (fun o => if Order.id o =? id
                   then {| Order.id := Order.id o;
                           Order.totalAmount := Order.totalAmount o;
                           Order.status := status |}
                   else o) (orders db))
    (seq_orders db) db.

(** *** order_details

    The values of one row of [insert(orderDetails).values(batch)]. *)
Record OrderDetailValues := {
  v_orderId : Z; v_productId : string; v_name : string;
  v_price : Z; v_quantity : Z }.

(** One row of the statement; [(order_id, product_id)] is unique. *)
Definition insertOrderDetailRow (st : list OrderDetail.t * Z)
    (v : OrderDetailValues) : option (list OrderDetail.t * Z) :=
  let (rows, last) := st in
  if existsb (fun d => (OrderDetail.orderId d =? v_orderId v)
                       && (OrderDetail.productId d =? v_productId v)%string)
             rows
  then None
  else
    let id := next_rowid last (map OrderDetail.id rows) in
    Some (rows ++ [ {| OrderDetail.id := id;
                       OrderDetail.orderId := v_orderId v;
                       OrderDetail.productId := v_productId v;
                       OrderDetail.name := v_name v;
                       OrderDetail.price := v_price v;
                       OrderDetail.quantity := v_quantity v |} ], id).

Fixpoint insertOrderDetailRows (st : list OrderDetail.t * Z)
    (batch : list OrderDetailValues) : option (list OrderDetail.t * Z) :=
  match batch with
  | [] => Some st
  | v :: rest =>
      match insertOrderDetailRow st v with
      | None => None
      | Some st' => insertOrderDetailRows st' rest
      end
  end.

Definition insertOrderDetails (batch : list OrderDetailValues) (db : Db)
  : option Db :=
  match insertOrderDetailRows (orderDetails db, seq_orderDetails db) batch with
  | None => None
  | Some (rows, last) => Some (with_orderDetails rows last db)
  end.

(** *** payments *)

(** [insert(payments).values({orderId, transactionId, amount, method,
    status}).returning()]; [transaction_id] is unique, [user_id] and
    [paid_at] are not given and stay null. *)
Definition insertPayment (orderId : Z) (transactionId : string) (amount : Z)
    (method : PaymentMethod.t) (status : PaymentStatus.t) (db : Db)
  : option (Db * Payment.t) :=
  if existsb (fun p => (Payment.transactionId p =? transactionId)%string)
             (payments db)
  then None
  else
    let row := {| Payment.id :=
                    next_rowid (seq_payments db) (map Payment.id (payments db));
                  Payment.orderId := orderId;
                  Payment.userId := None;
                  Payment.transactionId := transactionId;
                  Payment.amount := amount;
                  Payment.method := method;
                  Payment.status := status;
                  Payment.paidAt := None |} in
    Some (with_payments (payments db ++ [row]) (Payment.id row) db, row).

(** [select().from(payments).get({ transactionId })].  The argument of
    [get] gives values to the named placeholders of a prepared query; this
    query has no placeholder and no [where], so it selects every row and
    [get] returns the first one. *)
Definition selectPayment (db : Db) : option Payment.t :=
  hd_error (payments db).

(** [select().from(payments).where(and(eq(payments.transactionId,
    transactionId), eq(payments.method, "prepaid"))).get()]. *)
Definition selectPrepaidPayment (transactionId : string) (db : Db)
  : option Payment.t :=
  find (fun p => (Payment.transactionId p =? transactionId)%string
                 && PaymentMethod.eqb (Payment.method p) PaymentMethod.prepaid)
       (payments db).

(** [select().from(payments).where(eq(payments.transactionId,
    transactionId)).get()]. *)
Definition selectPaymentByTransactionId (transactionId : string) (db : Db)
  : option Payment.t :=
  find (fun p => (Payment.transactionId p =? transactionId)%string)
       (payments db).

(** [update(payments).set({status: "completed", paidAt: new Date()})
    .where(eq(payments.transactionId, transactionId))]. *)
Definition completePaymentRow (transactionId : string) (now : Z)
    (p : Payment.t) : Payment.t :=
  if (Payment.transactionId p =? transactionId)%string
  then {| Payment.id := Payment.id p;
          Payment.orderId := Payment.orderId p;
          Payment.userId := Payment.userId p;
          Payment.transactionId := Payment.transactionId p;
          Payment.amount := Payment.amount p;
          Payment.method := Payment.method p;
          Payment.status := PaymentStatus.completed;
          Payment.paidAt := Some now |}
  else p.

Definition updatePaymentCompleted (transactionId : string) (now : Z)
    (db : Db) : Db :=
  with_payments (map (completePaymentRow transactionId now) (payments db))
                (seq_payments db) db.

(** *** users *)

(** [select().from(users).where(eq(users.uid, uid)).get()]. *)
Definition selectUserByUid (uid : string) (db : Db) : option User.t :=
  find (fun u => (User.uid u =? uid)%string) (users db).

(** [insert(users).values({uid, balance}).returning()]; [uid] is unique. *)
Definition insertUser (uid : string) (balance : Z) (db : Db)
  : option (Db * User.t) :=
  if existsb (fun u => (User.uid u =? uid)%string) (users db)
  then None
  else
    let row := {| User.id := next_rowid (seq_users db) (map User.id (users db));
                  User.uid := uid;
                  User.balance := balance |} in
    Some (with_users (users db ++ [row]) (User.id row) db, row).

Definition setBalance (balance : Z) (u : User.t) : User.t :=
  {| User.id := User.id u; User.uid := User.uid u; User.balance := balance |}.

(** [update(users).set({balance}).where(eq(users.id, id))]. *)
Definition updateUserBalanceById (id : Z) (balance : Z) (db : Db) : Db :=
  with_users (map (fun u => if User.id u =? id then setBalance balance u else u)
                  (users db))
             (seq_users db) db.

(** [update(users).set({balance}).where(eq(users.uid, uid))]. *)
Definition updateUserBalanceByUid (uid : string) (balance : Z) (db : Db)
  : Db :=
  with_users (map (fun u => if (User.uid u =? uid)%string
                            then setBalance balance u else u)
                  (users db))
             (seq_users db) db.

(** *** transaction_history *)

(** The values of the row of [insert(transactionHistory).values(...)], once
    parsed. *)
Record TransactionHistoryValues := {
  h_transactionId : string; h_userId : string;
  h_amount : Z; h_transactionType : TransactionType.t }.

(** [insert(transactionHistory).values({transactionId, userId, amount,
    transactionType})]. *)
Definition insertTransactionHistory (v : TransactionHistoryValues) (db : Db)
  : Db :=
  let id := next_rowid (seq_transactionHistory db)
                       (map TransactionHistory.id (transactionHistory db)) in
  with_transactionHistory
    (transactionHistory db
     ++ [ {| TransactionHistory.id := id;
             TransactionHistory.transactionId := Some (h_transactionId v);
             TransactionHistory.userId := h_userId v;
             TransactionHistory.amount := h_amount v;
             TransactionHistory.transactionType := h_transactionType v |} ])
    id db.

(** ** [chunk] of es-toolkit: consecutive slices of [size] elements, the last
    one possibly shorter. *)
Definition chunk {A : Type} (arr : list A) (size : nat) : list (list A) :=
  let chunkLength := ((List.length arr + size - 1) / size)%nat in
  map (fun index => firstn size (skipn (index * size) arr))
      (seq 0 chunkLength).

(** ** Responses *)

Inductive Body :=
| ErrorBody (error : string)
| ValidationErrorBody
| OrderBody (transactionId : string) (amount : Z) (method : PaymentMethod.t)
            (status : PaymentStatus.t) (payUrl : option string)
| ChargeBody (transactionId : string) (userId : Z) (uid : string)
             (amount : Z) (balance : Z)
| PaymentBody (transactionId : string) (amount : Z)
              (method : PaymentMethod.t) (status : PaymentStatus.t)
| ProfileBody (id : Z) (uid : string) (balance : Z)
| PrepaidBody (transactionId : string) (amount : Z)
              (status : PaymentStatus.t).

(** [c.json(body, status)], and the 500 Hono answers an uncaught exception
    with. *)
Inductive Response :=
| Json (body : Body) (status : Z)
| InternalServerError.

(** ** Handlers: statements in sequence, left by a response

    A handler threads the database through its statements and either goes on
    with a value or has answered ([return c.json(...)], or an exception). *)

Definition Handler (A : Type) : Type := Db -> Db * (Response + A).

Definition ret {A : Type} (a : A) : Handler A := fun db => (db, inr a).

Definition bind {A B : Type} (m : Handler A) (k : A -> Handler B)
  : Handler B :=
  fun db =>
    match m db with
    | (db', inl r) => (db', inl r)
    | (db', inr a) => k a db'
    end.

Notation "x <- m ;; k" := (bind m (fun x => k))
  (at level 61, m at next level, right associativity).
Notation "m ;; k" := (bind m (fun _ => k))
  (at level 61, right associativity).

Definition respond {A : Type} (r : Response) : Handler A :=
  fun db => (db, inl r).

Definition throw {A : Type} : Handler A := respond InternalServerError.

(** A statement that reads. *)
Definition query {A : Type} (q : Db -> A) : Handler A :=
  fun db => (db, inr (q db)).

(** A statement that writes. *)
Definition exec (w : Db -> Db) : Handler unit :=
  fun db => (w db, inr tt).

(** A statement that writes and returns a row. *)
Definition returning {A : Type} (w : Db -> Db * A) : Handler A :=
  fun db => let (db', a) := w db in (db', inr a).

(** A statement a constraint can refuse: the exception leaves the database
    as it was before the statement. *)
Definition exec_checked (w : Db -> option Db) : Handler unit :=
  fun db =>
    match w db with
    | Some db' => (db', inr tt)
    | None => (db, inl InternalServerError)
    end.

Definition returning_checked {A : Type} (w : Db -> option (Db * A))
  : Handler A :=
  fun db =>
    match w db with
    | Some (db', a) => (db', inr a)
    | None => (db, inl InternalServerError)
    end.

(** [for (const x of xs) { await ... }]. *)
Fixpoint for_each {A : Type} (xs : list A) (body : A -> Handler unit)
  : Handler unit :=
  match xs with
  | [] => ret tt
  | x :: rest => body x ;; for_each rest body
  end.

(** [schema.parse(values)]: the values, or the exception [parse] throws. *)
Definition parse {A : Type} (parsed : option A) : Handler A :=
  fun db =>
    match parsed with
    | Some a => (db, inr a)
    | None => (db, inl InternalServerError)
    end.

(** The response a request gets, and the database it leaves. *)
Definition serve (h : Handler Response) (db : Db) : Db * Response :=
  match h db with
  | (db', inl r) => (db', r)
  | (db', inr r) => (db', r)
  end.

(** ** Numbers

    A number of JavaScript is an IEEE 754 double.  The numbers of the
    handlers are integers: a finite one is modelled by its value (the two
    zeros are one, nothing here tells them apart), and the sum or the
    product of two of them is the exact result rounded to the nearest
    double, ties to even, or an infinity past the largest double. *)

Module Number.

Inductive t :=
| Finite (z : Z)
| Infinity
| NegInfinity
| NaN.

(** [Number.MAX_SAFE_INTEGER], [2 ^ 53 - 1]. *)
Definition MAX_SAFE_INTEGER : Z := 9007199254740991.

Definition isSafeInteger (z : Z) : bool :=
  (- MAX_SAFE_INTEGER <=? z) && (z <=? MAX_SAFE_INTEGER).

(** The double nearest to an integer.  Up to [2 ^ 53] every integer is a
    double; a larger one keeps 53 significant bits, [ulp] being the weight
    of the last one. *)
Definition round (z : Z) : t :=
  let a := Z.abs z in
  if a <=? MAX_SAFE_INTEGER then Finite z
  else
    let ulp := 2 ^ (Z.log2 a - 52) in
    let q := a / ulp in
    let r := a mod ulp in
    let up := (ulp <? 2 * r) || ((ulp =? 2 * r) && Z.odd q) in
    let m := (if up then q + 1 else q) * ulp in
    if 2 ^ 1024 <=? m
    then (if z <? 0 then NegInfinity else Infinity)
    else Finite (Z.sgn z * m).

(** [a + b]. *)
Definition add (a b : t) : t :=
  match a, b with
  | NaN, _ | _, NaN => NaN
  | Infinity, NegInfinity | NegInfinity, Infinity => NaN
  | Infinity, _ | _, Infinity => Infinity
  | NegInfinity, _ | _, NegInfinity => NegInfinity
  | Finite x, Finite y => round (x + y)
  end.

(** The product of an infinity and a finite number. *)
Definition scale (positive : bool) (x : Z) : t :=
  if x =? 0 then NaN
  else if Bool.eqb positive (0 <? x) then Infinity
  else NegInfinity.

(** [a * b]. *)
Definition mul (a b : t) : t :=
  match a, b with
  | NaN, _ | _, NaN => NaN
  | Finite x, Finite y => round (x * y)
  | Finite x, Infinity | Infinity, Finite x => scale true x
  | Finite x, NegInfinity | NegInfinity, Finite x => scale false x
  | Infinity, Infinity | NegInfinity, NegInfinity => Infinity
  | Infinity, NegInfinity | NegInfinity, Infinity => NegInfinity
  end.

(** [a === b]. *)
Definition strictEquals (a b : t) : bool :=
  match a, b with
  | Finite x, Finite y => x =? y
  | Infinity, Infinity | NegInfinity, NegInfinity => true
  | _, _ => false
  end.

End Number.

(** ** Generated schemas

    [createInsertSchema(table)] of drizzle-zod 0.6 gives an [int] column the
    schema [z.number().gte(Number.MIN_SAFE_INTEGER)
    .lte(Number.MAX_SAFE_INTEGER).int()] and a [text] column [z.string()].
    A schema is modelled by its [parse] on the values the handlers give it:
    [None] is the [ZodError] thrown.  What is a string, an enumeration
    member or a rowid by its type here passes. *)

(** What a handler puts in a field a schema wants a string in. *)
Inductive JsValue :=
| JsNumber (z : Z)
| JsString (s : string).

(** [createInsertSchema(products)], on [{id, name, price}]. *)
Definition productInsertSchema (values : Product.t) : option Product.t :=
  if Number.isSafeInteger (Product.price values) then Some values else None.

(** [orderInsertSchema], on [{totalAmount, status}]. *)
Definition orderInsertSchema (totalAmount : Z) (status : OrderStatus.t)
  : option (Z * OrderStatus.t) :=
  if Number.isSafeInteger totalAmount then Some (totalAmount, status)
  else None.

(** [orderDetailInsertSchema], on [{orderId, productId, name, price,
    quantity}]. *)
Definition orderDetailInsertSchema (values : OrderDetailValues)
  : option OrderDetailValues :=
  if Number.isSafeInteger (v_price values)
     && Number.isSafeInteger (v_quantity values)
  then Some values
  else None.

(** [paymentInsertSchema], on [{orderId, transactionId, amount, method,
    status}]: the amount it lets through. *)
Definition paymentInsertSchema (amount : Z) : option Z :=
  if Number.isSafeInteger amount then Some amount else None.

(** [transactionHistoryInsertSchema], on [{transactionId, userId, amount,
    transactionType}]: [user_id] is a [text] column, so [userId] has to be
    a string. *)
Definition transactionHistoryInsertSchema (transactionId : string)
    (userId : JsValue) (amount : Z) (transactionType : TransactionType.t)
  : option TransactionHistoryValues :=
  match userId with
  | JsNumber _ => None
  | JsString userId =>
      if Number.isSafeInteger amount
      then Some {| h_transactionId := transactionId;
                   h_userId := userId;
                   h_amount := amount;
                   h_transactionType := transactionType |}
      else None
  end.

(** [xs.map((x) => schema.parse(...))]: the first value refused throws. *)
Fixpoint parse_each {A B : Type} (schema : A -> option B) (xs : list A)
  : option (list B) :=
  match xs with
  | [] => Some []
  | x :: rest =>
      match schema x with
      | None => None
      | Some y =>
          match parse_each schema rest with
          | None => None
          | Some ys => Some (y :: ys)
          end
      end
  end.

(** ** What the handlers receive *)

Module Item.
(** Modelled from the spec: the type [Item] of [./item-api-schema] is not
    among the sources.  The catalog-fetch client returns an identifier, a
    name and a price per entry; the handler reads them as [jan_code],
    [name] and [price]. *)
Record t := { jan_code : string; name : string; price : Z }.
End Item.

Module Detail.
(** Modelled from the spec: [createTransactionApiRequestSchema] of
    [./create-transaction-api] is not among the sources.  A line of the
    body is [{productId, name, price, quantity}]. *)
Record t := { productId : string; name : string; price : Z; quantity : Z }.
End Detail.

Module CreateTransactionApiRequest.
(** Modelled from the spec: the validated body of [POST /api/orders/] is
    [{details, totalAmount, paymentMethod}], with [paymentMethod] one of
    ["cash"] and ["prepaid"] (the handler's cast of the payment values). *)
Record t := {
  details : list Detail.t;
  totalAmount : Z;
  paymentMethod : PaymentMethod.t }.
End CreateTransactionApiRequest.

(** The body of [PUT /api/admin/prepaid/charge/], and its schema
    [adminPrepaidChargeApiRequestSchema]:
    [{uid: z.string().nonempty(), amount: z.number().int().positive()}]. *)
Module AdminPrepaidChargeApiRequest.
Record t := { uid : string; amount : Z }.
End AdminPrepaidChargeApiRequest.

Definition adminPrepaidChargeApiRequestSchema
    (body : AdminPrepaidChargeApiRequest.t) : bool :=
  negb (AdminPrepaidChargeApiRequest.uid body =? "")%string
  && (0 <? AdminPrepaidChargeApiRequest.amount body).

Record Bindings := { CONSUMER_SITE_BASE_URL : string }.

(** ** [POST /api/orders/] *)

(** [itemData.find((item) => item.jan_code === detail.productId &&
    item.price === detail.price)]. *)
Definition findItem (itemData : list Item.t) (detail : Detail.t)
  : option Item.t :=
  find (fun item => (Item.jan_code item =? Detail.productId detail)%string
                    && (Item.price item =? Detail.price detail))
       itemData.

(** The callback of [requestData.details.reduce(..., 0)],
    [acc + item.price * detail.quantity] in the numbers of JavaScript;
    [None] is the [UnknownProductError] it throws, which ends the
    reduction. *)
Definition addDetail (itemData : list Item.t) (acc : option Number.t)
    (detail : Detail.t) : option Number.t :=
  match acc with
  | None => None
  | Some acc =>
      match findItem itemData detail with
      | None => None
      | Some item =>
          Some (Number.add
                  acc
                  (Number.mul (Number.Finite (Item.price item))
                              (Number.Finite (Detail.quantity detail))))
      end
  end.

Definition computeTotal (itemData : list Item.t) (details : list Detail.t)
  : option Number.t :=
  fold_left (addDetail itemData) details (Some (Number.Finite 0)).

Definition productOfItem (item : Item.t) : Product.t :=
  {| Product.id := Item.jan_code item;
     Product.name := Item.name item;
     Product.price := Item.price item |}.

Definition detailValues (orderId : Z) (detail : Detail.t)
  : OrderDetailValues :=
  {| v_orderId := orderId;
     v_productId := Detail.productId detail;
     v_name := Detail.name detail;
     v_price := Detail.price detail;
     v_quantity := Detail.quantity detail |}.

Definition initialStatus (paymentMethod : PaymentMethod.t) (totalAmount : Z)
  : PaymentStatus.t :=
  if PaymentMethod.eqb paymentMethod PaymentMethod.cash || (totalAmount =? 0)
  then PaymentStatus.completed
  else PaymentStatus.pending.

(** [`${c.env.CONSUMER_SITE_BASE_URL}/pay?txnId=${txnId}`]. *)
Definition payUrlOf (env : Bindings) (txnId : string) : string :=
  String.append (CONSUMER_SITE_BASE_URL env)
                (String.append "/pay?txnId=" txnId).

(** Every entry of the catalog is parsed, then the rows are written to
    [products] in statements of ten. *)
Definition syncCatalog (itemData : list Item.t) : Handler unit :=
  rows <- parse (parse_each (fun item =>
                               productInsertSchema (productOfItem item))
                            itemData) ;;
  for_each (chunk rows 10)
           (fun itemsParsed => exec_checked (upsertProducts itemsParsed)).

(** [fetched] is what [ofetch] returned ([None]: it threw); [txnId] is the
    identifier [crypto.randomUUID()] drew. *)
Definition post_orders (env : Bindings) (fetched : option (list Item.t))
    (txnId : string) (requestData : CreateTransactionApiRequest.t)
  : Handler Response :=
  match fetched with
  | None => throw
  | Some itemData =>
      syncCatalog itemData ;;
      match computeTotal itemData
                         (CreateTransactionApiRequest.details requestData) with
      | None => respond (Json (ErrorBody "Unknown product") 400)
      | Some totalAmount =>
          if negb (Number.strictEquals
                     totalAmount
                     (Number.Finite
                        (CreateTransactionApiRequest.totalAmount requestData)))
          then respond (Json (ErrorBody "Invalid totalAmount") 400)
          else
            values <- parse
                        (orderInsertSchema
                           (CreateTransactionApiRequest.totalAmount requestData)
                           OrderStatus.pending) ;;
            order <- returning (insertOrder (fst values) (snd values)) ;;
            details <- parse
                         (parse_each
                            (fun detail =>
                               orderDetailInsertSchema
                                 (detailValues (Order.id order) detail))
                            (CreateTransactionApiRequest.details requestData)) ;;
            for_each
              (chunk details 10)
              (fun detailsParsed =>
                 exec_checked (insertOrderDetails detailsParsed)) ;;
            amount <- parse
                        (paymentInsertSchema
                           (CreateTransactionApiRequest.totalAmount
                              requestData)) ;;
            payment <- returning_checked
                         (insertPayment
                            (Order.id order) txnId amount
                            (CreateTransactionApiRequest.paymentMethod
                               requestData)
                            (initialStatus
                               (CreateTransactionApiRequest.paymentMethod
                                  requestData)
                               (CreateTransactionApiRequest.totalAmount
                                  requestData))) ;;
            (if PaymentStatus.eqb (Payment.status payment)
                                  PaymentStatus.completed
             then exec (updateOrderStatus (Order.id order)
                                          OrderStatus.completed)
             else ret tt) ;;
            let payUrl :=
              if PaymentStatus.eqb (Payment.status payment)
                                   PaymentStatus.pending
              then Some (payUrlOf env txnId)
              else None in
            ret (Json (OrderBody (Payment.transactionId payment)
                                 (Payment.amount payment)
                                 (Payment.method payment)
                                 (Payment.status payment)
                                 payUrl) 200)
      end
  end.

(** ** [PUT /api/admin/prepaid/charge/] *)

Definition put_admin_prepaid_charge (transactionId : string)
    (body : AdminPrepaidChargeApiRequest.t) : Handler Response :=
  if negb (adminPrepaidChargeApiRequestSchema body)
  then respond (Json ValidationErrorBody 400)
  else
    let requestData := body in
    user <- query (selectUserByUid
                     (AdminPrepaidChargeApiRequest.uid requestData)) ;;
    match user with
    | None => respond (Json (ErrorBody "User not found") 404)
    | Some user =>
        let newBalance :=
          User.balance user + AdminPrepaidChargeApiRequest.amount requestData in
        exec (updateUserBalanceById (User.id user) newBalance) ;;
        values <- parse
                    (transactionHistoryInsertSchema
                       transactionId (JsNumber (User.id user))
                       (AdminPrepaidChargeApiRequest.amount requestData)
                       TransactionType.charge) ;;
        exec (insertTransactionHistory values) ;;
        ret (Json (ChargeBody transactionId (User.id user) (User.uid user)
                              (AdminPrepaidChargeApiRequest.amount requestData)
                              newBalance) 200)
    end.

(** ** [GET /api/payments/:transactionId/] *)

Definition get_payment (transactionId : string) : Handler Response :=
  row <- query selectPayment ;;
  match row with
  | None => throw
  | Some payment =>
      ret (Json (PaymentBody (Payment.transactionId payment)
                             (Payment.amount payment)
                             (Payment.method payment)
                             (Payment.status payment)) 200)
  end.

(** ** [GET /api/profile/] *)

Definition get_profile (uid : option string) : Handler Response :=
  match uid with
  | None => respond (Json (ErrorBody "Unauthorized") 401)
  | Some uid =>
      found <- query (selectUserByUid uid) ;;
      user <- match found with
              | None => returning_checked (insertUser uid 0)
              | Some user => ret user
              end ;;
      ret (Json (ProfileBody (User.id user) (User.uid user)
                             (User.balance user)) 200)
  end.

(** ** [GET /api/prepaid/pay/:transactionId/] *)

Definition get_prepaid_pay (uid : option string) (transactionId : string)
  : Handler Response :=
  match uid with
  | None => respond (Json (ErrorBody "Unauthorized") 401)
  | Some uid =>
      paymentData <- query (selectPrepaidPayment transactionId) ;;
      match paymentData with
      | None => respond (Json (ErrorBody "Payment not found") 404)
      | Some payment =>
          ret (Json (PrepaidBody (Payment.transactionId payment)
                                 (Payment.amount payment)
                                 (Payment.status payment)) 200)
      end
  end.

(** ** [POST /api/prepaid/pay/:transactionId/]

    [now] is the instant [new Date()] reads. *)

Definition post_prepaid_pay (uid : option string) (transactionId : string)
    (now : Z) : Handler Response :=
  match uid with
  | None => respond (Json (ErrorBody "Unauthorized") 401)
  | Some uid =>
      paymentData <- query (selectPrepaidPayment transactionId) ;;
      match paymentData with
      | None => respond (Json (ErrorBody "Payment not found") 404)
      | Some payment =>
          if negb (PaymentStatus.eqb (Payment.status payment)
                                     PaymentStatus.pending)
          then respond (Json (ErrorBody "Payment is not pending") 400)
          else
            userData <- query (selectUserByUid uid) ;;
            match userData with
            | None => respond (Json (ErrorBody "User not found") 404)
            | Some user =>
                let newBalance := User.balance user - Payment.amount payment in
                if newBalance <? 0
                then respond (Json (ErrorBody "Insufficient balance") 400)
                else
                  exec (updateUserBalanceByUid uid newBalance) ;;
                  exec (updatePaymentCompleted transactionId now) ;;
                  reread <- query (selectPaymentByTransactionId
                                     transactionId) ;;
                  match reread with
                  | None => throw
                  | Some updatedPayment =>
                      values <- parse
                                  (transactionHistoryInsertSchema
                                     transactionId (JsNumber (User.id user))
                                     (Payment.amount payment)
                                     TransactionType.payment) ;;
                      exec (insertTransactionHistory values) ;;
                      ret (Json (PaymentBody
                                   (Payment.transactionId updatedPayment)
                                   (Payment.amount updatedPayment)
                                   (Payment.method updatedPayment)
                                   (Payment.status updatedPayment)) 200)
                  end
            end
      end
  end.

(** ** The service: one request after another *)

Inductive Request :=
| PostOrders (fetched : option (list Item.t)) (txnId : string)
             (requestData : CreateTransactionApiRequest.t)
| PutAdminPrepaidCharge (transactionId : string)
                        (body : AdminPrepaidChargeApiRequest.t)
| GetPayment (transactionId : string)
| GetProfile (uid : option string)
| GetPrepaidPay (uid : option string) (transactionId : string)
| PostPrepaidPay (uid : option string) (transactionId : string) (now : Z).

Definition handler (env : Bindings) (req : Request) : Handler Response :=
  match req with
  | PostOrders fetched txnId requestData =>
      post_orders env fetched txnId requestData
  | PutAdminPrepaidCharge transactionId body =>
      put_admin_prepaid_charge transactionId body
  | GetPayment transactionId => get_payment transactionId
  | GetProfile uid => get_profile uid
  | GetPrepaidPay uid transactionId => get_prepaid_pay uid transactionId
  | PostPrepaidPay uid transactionId now =>
      post_prepaid_pay uid transactionId now
  end.

Definition handle (env : Bindings) (db : Db) (req : Request) : Db * Response :=
  serve (handler env req) db.

(** The database after a sequence of requests, and the responses given. *)
Fixpoint run (env : Bindings) (db : Db) (reqs : list Request)
  : Db * list Response :=
  match reqs with
  | [] => (db, [])
  | req :: rest =>
      let (db1, r) := handle env db req in
      let (db2, rs) := run env db1 rest in
      (db2, r :: rs)
  end.

(** The states the service reaches from the empty database. *)
Inductive reachable (env : Bindings) : Db -> Prop :=
| reachable_empty : reachable env emptyDb
| reachable_handle db req :
    reachable env db -> reachable env (fst (handle env db req)).

(** ** Two settlements at once

    Requests are served independently, and the storage runs one statement at
    a time: between two statements of one [POST /api/prepaid/pay/] another
    request may run statements of its own.  [PayState] is where a request
    stands between its statements, with the locals it holds; [pay_step] runs
    its next statement and the code up to the following [await]. *)

Inductive PayState :=
| PayStart
| PayHasPayment (uid : string) (payment : Payment.t)
| PayHasUser (uid : string) (payment : Payment.t) (user : User.t)
             (newBalance : Z)
| PayDebited (payment : Payment.t) (user : User.t)
| PaySettled (payment : Payment.t) (user : User.t)
| PayReread (updatedPayment : Payment.t) (values : TransactionHistoryValues)
| PayDone (r : Response).

Record PayRequest := {
  pay_uid : option string;
  pay_transactionId : string;
  pay_now : Z }.

Definition pay_step (req : PayRequest) (db : Db) (st : PayState)
  : Db * PayState :=
  let transactionId := pay_transactionId req in
  match st with
  | PayStart =>
      match pay_uid req with
      | None => (db, PayDone (Json (ErrorBody "Unauthorized") 401))
      | Some uid =>
          match selectPrepaidPayment transactionId db with
          | None => (db, PayDone (Json (ErrorBody "Payment not found") 404))
          | Some payment =>
              if negb (PaymentStatus.eqb (Payment.status payment)
                                         PaymentStatus.pending)
              then (db, PayDone (Json (ErrorBody "Payment is not pending") 400))
              else (db, PayHasPayment uid payment)
          end
      end
  | PayHasPayment uid payment =>
      match selectUserByUid uid db with
      | None => (db, PayDone (Json (ErrorBody "User not found") 404))
      | Some user =>
          let newBalance := User.balance user - Payment.amount payment in
          if newBalance <? 0
          then (db, PayDone (Json (ErrorBody "Insufficient balance") 400))
          else (db, PayHasUser uid payment user newBalance)
      end
  | PayHasUser uid payment user newBalance =>
      (updateUserBalanceByUid uid newBalance db, PayDebited payment user)
  | PayDebited payment user =>
      (updatePaymentCompleted transactionId (pay_now req) db,
       PaySettled payment user)
  | PaySettled payment user =>
      match selectPaymentByTransactionId transactionId db with
      | None => (db, PayDone InternalServerError)
      | Some updatedPayment =>
          match transactionHistoryInsertSchema
                  transactionId (JsNumber (User.id user))
                  (Payment.amount payment) TransactionType.payment with
          | None => (db, PayDone InternalServerError)
          | Some values => (db, PayReread updatedPayment values)
          end
      end
  | PayReread updatedPayment values =>
      (insertTransactionHistory values db,
       PayDone (Json (PaymentBody (Payment.transactionId updatedPayment)
                                  (Payment.amount updatedPayment)
                                  (Payment.method updatedPayment)
                                  (Payment.status updatedPayment)) 200))
  | PayDone r => (db, PayDone r)
  end.

(** One request on its own: its statements one after the other. *)
Fixpoint pay_steps (n : nat) (req : PayRequest) (db : Db) (st : PayState)
  : Db * PayState :=
  match n with
  | O => (db, st)
  | S n' => let (db', st') := pay_step req db st in pay_steps n' req db' st'
  end.

(** Two requests: a schedule says whose statement runs next. *)
Inductive Turn := First | Second.

Definition Config : Type := Db * PayState * PayState.

Definition turn_step (req1 req2 : PayRequest) (c : Config) (t : Turn)
  : Config :=
  let '(db, st1, st2) := c in
  match t with
  | First => let (db', st1') := pay_step req1 db st1 in (db', st1', st2)
  | Second => let (db', st2') := pay_step req2 db st2 in (db', st1, st2')
  end.

Definition interleave (req1 req2 : PayRequest) (schedule : list Turn)
    (c : Config) : Config :=
  fold_left (turn_step req1 req2) schedule c.

(** ** Notions the properties are stated with *)

(** The sum of [price * quantity] over the lines of an order. *)
Definition linesTotal {A : Type} (price quantity : A -> Z) (lines : list A)
  : Z :=
  fold_right (fun line acc => price line * quantity line + acc) 0 lines.

(** A number past the safe integers. *)
Definition large (n : Number.t) : Prop :=
  n = Number.Infinity
  \/ exists m, n = Number.Finite m /\ Number.MAX_SAFE_INTEGER < m.

(** The values an [order_details] row was inserted with. *)
Definition valuesOf (d : OrderDetail.t) : OrderDetailValues :=
  {| v_orderId := OrderDetail.orderId d;
     v_productId := OrderDetail.productId d;
     v_name := OrderDetail.name d;
     v_price := OrderDetail.price d;
     v_quantity := OrderDetail.quantity d |}.

Definition balances_nonneg (db : Db) : Prop :=
  Forall (fun u => 0 <= User.balance u) (users db).

(** The database with the [user_id] of every payment chosen by [owner]. *)
Definition setOwner (owner : Z -> option Z) (p : Payment.t) : Payment.t :=
  {| Payment.id := Payment.id p;
     Payment.orderId := Payment.orderId p;
     Payment.userId := owner (Payment.id p);
     Payment.transactionId := Payment.transactionId p;
     Payment.amount := Payment.amount p;
     Payment.method := Payment.method p;
     Payment.status := Payment.status p;
     Payment.paidAt := Payment.paidAt p |}.

Definition setOwners (owner : Z -> option Z) (db : Db) : Db :=
  with_payments (map (setOwner owner) (payments db)) (seq_payments db) db.

Definition insufficientBalance : Response :=
  Json (ErrorBody "Insufficient balance") 400.






(** *** Two settlements of the whole balance

    The invariant of two interleaved settlements, by one user [uid] whose
    balance is [B], of two payments of amount [B].  [payment_known] says
    what the payment of a request looks like at each point of that request;
    [debited] and [rejected] say whether the request has written the new
    balance, or has been refused for want of funds. *)










(** ** A shop with one product, for the examples *)

Definition shop : Bindings :=
  {| CONSUMER_SITE_BASE_URL := "https://shop.example" |}.

Definition catalog : list Item.t :=
  [ {| Item.jan_code := "P1"; Item.name := "Tea"; Item.price := 500 |} ].

Definition tea (price quantity : Z) : Detail.t :=
  {| Detail.productId := "P1"; Detail.name := "Tea";
     Detail.price := price; Detail.quantity := quantity |}.

Definition orderOf (lines : list Detail.t) (total : Z)
    (method : PaymentMethod.t) : CreateTransactionApiRequest.t :=
  {| CreateTransactionApiRequest.details := lines;
     CreateTransactionApiRequest.totalAmount := total;
     CreateTransactionApiRequest.paymentMethod := method |}.

Definition chargeOf (uid : string) (amount : Z)
  : AdminPrepaidChargeApiRequest.t :=
  {| AdminPrepaidChargeApiRequest.uid := uid;
     AdminPrepaidChargeApiRequest.amount := amount |}.

(** Two prepaid orders of one tea each, and the user ["u1"] charged 500. *)
Definition twoOrdersOneBalance : list Request :=
  [ PostOrders (Some catalog) "t1"
               (orderOf [tea 500 1] 500 PaymentMethod.prepaid);
    PostOrders (Some catalog) "t2"
               (orderOf [tea 500 1] 500 PaymentMethod.prepaid);
    GetProfile (Some "u1");
    PutAdminPrepaidCharge "c1" (chargeOf "u1" 500) ].

Definition dbTwoOrders : Db := fst (run shop emptyDb twoOrdersOneBalance).

(** One prepaid order of two teas, the user charged 1000, and the order
    settled. *)
Definition orderThenSettle : list Request :=
  [ PostOrders (Some catalog) "t1"
               (orderOf [tea 500 2] 1000 PaymentMethod.prepaid);
    GetProfile (Some "u1");
    PutAdminPrepaidCharge "c1" (chargeOf "u1" 1000);
    PostPrepaidPay (Some "u1") "t1" 1700000000 ].

Definition dbSettled : Db := fst (run shop emptyDb orderThenSettle).

(** One prepaid order of one tea, and the user charged 300 only. *)
Definition orderAndShortBalance : list Request :=
  [ PostOrders (Some catalog) "t1"
               (orderOf [tea 500 1] 500 PaymentMethod.prepaid);
    GetProfile (Some "u1");
    PutAdminPrepaidCharge "c1" (chargeOf "u1" 300) ].

Definition dbShort : Db := fst (run shop emptyDb orderAndShortBalance).




(** A catalog in which two products carry one name. *)
Definition twoTeas : list Item.t :=
  [ {| Item.jan_code := "P1"; Item.name := "Tea"; Item.price := 500 |};
    {| Item.jan_code := "P2"; Item.name := "Tea"; Item.price := 300 |} ].

(** A catalog of two products at the largest safe price. *)
Definition dearCatalog : list Item.t :=
  [ {| Item.jan_code := "P1"; Item.name := "Tea";
       Item.price := Number.MAX_SAFE_INTEGER |};
    {| Item.jan_code := "P2"; Item.name := "Coffee";
       Item.price := Number.MAX_SAFE_INTEGER |} ].

Definition dearTea (quantity : Z) : Detail.t :=
  {| Detail.productId := "P1"; Detail.name := "Tea";
     Detail.price := Number.MAX_SAFE_INTEGER; Detail.quantity := quantity |}.

Definition dearCoffee (quantity : Z) : Detail.t :=
  {| Detail.productId := "P2"; Detail.name := "Coffee";
     Detail.price := Number.MAX_SAFE_INTEGER; Detail.quantity := quantity |}.

(** ** Middlewares ([src/middlewares.ts]) *)

(** [s.charCodeAt(i)]; past the end it is [NaN], which [^] reads as 0.  The
    code units of the keys are below [2 ^ 8], where the 32-bit operators of
    the source and those of [Z] agree. *)
Definition charCodeAt (s : string) (i : nat) : Z :=
  match String.get i s with
  | Some c => Z.of_N (Ascii.N_of_ascii c)
  | None => 0
  end.

Definition safeCompare (a b : string) : bool :=
  if negb (String.length a =? String.length b)%nat
  then false
  else
    let mismatch :=
      fold_left (fun mismatch i =>
                   Z.lor mismatch (Z.lxor (charCodeAt a i) (charCodeAt b i)))
                (seq 0 (String.length a)) 0 in
    mismatch =? 0.

(** [x || ""], for a header or a binding that may be undefined. *)
Definition orEmpty (x : option string) : string :=
  match x with
  | Some s => s
  | None => ""
  end.

(** The three keys of the bindings; a binding may be unset. *)
Record ApiKeys := {
  API_KEY : option string;
  ADMIN_API_KEY : option string;
  CONSUMER_API_KEY : option string }.

(** What a middleware does with a request: it answers, or calls [next()]. *)
Inductive Gate :=
| Next
| Text (body : string) (status : Z).

Definition checkKey (header serverKey : option string) : Gate :=
  let apiKey := orEmpty header in
  let serverKey := orEmpty serverKey in
  if negb (safeCompare apiKey serverKey)
  then Text "Unauthorized" 401
  else Next.

(** [header] is [c.req.header("X-API-KEY")]. *)
Definition checkApiKey (keys : ApiKeys) (header : option string) : Gate :=
  checkKey header (API_KEY keys).

Definition checkConsumerApiKey (keys : ApiKeys) (header : option string)
  : Gate :=
  checkKey header (CONSUMER_API_KEY keys).

Definition checkAdminApiKey (keys : ApiKeys) (header : option string)
  : Gate :=
  checkKey header (ADMIN_API_KEY keys).

(** What a route answers: the middleware's text, or the handler's response. *)
Inductive Answer :=
| Refused (body : string) (status : Z)
| Served (r : Response).

Definition guarded (gate : Gate) (h : Handler Response) (db : Db)
  : Db * Answer :=
  match gate with
  | Text body status => (db, Refused body status)
  | Next => let (db', r) := serve h db in (db', Served r)
  end.

(** The routes behind an API key, as [app.post], [app.put] and [app.get]
    chain middleware and handler.  The body of [POST /api/orders/] has
    passed its validator, which runs after the key check. *)
Definition post_orders_route (keys : ApiKeys) (env : Bindings)
    (header : option string) (fetched : option (list Item.t))
    (txnId : string) (requestData : CreateTransactionApiRequest.t)
  : Db -> Db * Answer :=
  guarded (checkApiKey keys header)
          (post_orders env fetched txnId requestData).

Definition put_admin_prepaid_charge_route (keys : ApiKeys)
    (header : option string) (transactionId : string)
    (body : AdminPrepaidChargeApiRequest.t) : Db -> Db * Answer :=
  guarded (checkAdminApiKey keys header)
          (put_admin_prepaid_charge transactionId body).

Definition get_payment_route (keys : ApiKeys) (header : option string)
    (transactionId : string) : Db -> Db * Answer :=
  guarded (checkApiKey keys header) (get_payment transactionId).

(** ** The users and the books, for the invariants *)



(** Orders and payments agree: ids and transaction identifiers are not
    shared, a payment is of one order, of the same amount, no two payments
    are of one order, and a completed order has its payment completed. *)
Definition books_ok (os : list Order.t) (ps : list Payment.t) : Prop :=
  NoDup (map Order.id os)
  /\ NoDup (map Payment.transactionId ps)
  /\ NoDup (map Payment.orderId ps)
  /\ (forall p, In p ps ->
                exists o, In o os
                          /\ Order.id o = Payment.orderId p
                          /\ Order.totalAmount o = Payment.amount p)
  /\ (forall o, In o os ->
                Order.status o = OrderStatus.completed ->
                exists p, In p ps
                          /\ Payment.orderId p = Order.id o
                          /\ Payment.status p = PaymentStatus.completed).

(** ** Other requests at once

    The profile and the charge, between their statements, as [PayState] is
    for the settlement. *)

Inductive ProfileState :=
| ProfileStart
| ProfileMissing (uid : string)
| ProfileDone (r : Response).

Definition profile_step (uid : option string) (db : Db) (st : ProfileState)
  : Db * ProfileState :=
  let answer user :=
    ProfileDone (Json (ProfileBody (User.id user) (User.uid user)
                                   (User.balance user)) 200) in
  match st with
  | ProfileStart =>
      match uid with
      | None => (db, ProfileDone (Json (ErrorBody "Unauthorized") 401))
      | Some uid =>
          match selectUserByUid uid db with
          | Some user => (db, answer user)
          | None => (db, ProfileMissing uid)
          end
      end
  | ProfileMissing uid =>
      match insertUser uid 0 db with
      | Some (db', user) => (db', answer user)
      | None => (db, ProfileDone InternalServerError)
      end
  | ProfileDone r => (db, ProfileDone r)
  end.

Inductive ChargeState :=
| ChargeStart
| ChargeHasUser (user : User.t) (newBalance : Z)
| ChargeUpdated (user : User.t) (newBalance : Z)
                (values : TransactionHistoryValues)
| ChargeDone (r : Response).

Record ChargeRequest := {
  charge_transactionId : string;
  charge_body : AdminPrepaidChargeApiRequest.t }.

Definition charge_step (req : ChargeRequest) (db : Db) (st : ChargeState)
  : Db * ChargeState :=
  let requestData := charge_body req in
  match st with
  | ChargeStart =>
      if negb (adminPrepaidChargeApiRequestSchema requestData)
      then (db, ChargeDone (Json ValidationErrorBody 400))
      else
        match selectUserByUid (AdminPrepaidChargeApiRequest.uid requestData)
                              db with
        | None => (db, ChargeDone (Json (ErrorBody "User not found") 404))
        | Some user =>
            (db, ChargeHasUser
                   user
                   (User.balance user
                    + AdminPrepaidChargeApiRequest.amount requestData))
        end
  | ChargeHasUser user newBalance =>
      let db' := updateUserBalanceById (User.id user) newBalance db in
      match transactionHistoryInsertSchema
              (charge_transactionId req) (JsNumber (User.id user))
              (AdminPrepaidChargeApiRequest.amount requestData)
              TransactionType.charge with
      | None => (db', ChargeDone InternalServerError)
      | Some values => (db', ChargeUpdated user newBalance values)
      end
  | ChargeUpdated user newBalance values =>
      (insertTransactionHistory values db,
       ChargeDone
         (Json (ChargeBody (charge_transactionId req) (User.id user)
                           (User.uid user)
                           (AdminPrepaidChargeApiRequest.amount requestData)
                           newBalance) 200))
  | ChargeDone r => (db, ChargeDone r)
  end.

(** Two requests of any kind, a schedule saying whose statement runs. *)
Definition turn_of {S1 S2 : Type} (step1 : Db -> S1 -> Db * S1)
    (step2 : Db -> S2 -> Db * S2) (c : Db * S1 * S2) (t : Turn)
  : Db * S1 * S2 :=
  let '(db, st1, st2) := c in
  match t with
  | First => let (db', st1') := step1 db st1 in (db', st1', st2)
  | Second => let (db', st2') := step2 db st2 in (db', st1, st2')
  end.

Definition interleaved {S1 S2 : Type} (step1 : Db -> S1 -> Db * S1)
    (step2 : Db -> S2 -> Db * S2) (schedule : list Turn) (c : Db * S1 * S2)
  : Db * S1 * S2 :=
  fold_left (turn_of step1 step2) schedule c.

(** The product of a given id. *)
Definition productById (id : string) (rows : list Product.t)
  : option Product.t :=
  find (fun p => (Product.id p =? id)%string) rows.

(** One cash order of two teas. *)
Definition dbCash : Db :=
  fst (run shop emptyDb
         [ PostOrders (Some catalog) "t1"
                      (orderOf [tea 500 2] 1000 PaymentMethod.cash) ]).

(** A deployment whose [API_KEY] is not set. *)
Definition keysUnset : ApiKeys :=
  {| API_KEY := None;
     ADMIN_API_KEY := Some "admin-secret";
     CONSUMER_API_KEY := None |}.

(** * Properties *)

(** ** Lists and lookups *)

Lemma find_map_stable {A : Type} (f : A -> bool) (g : A -> A) (l : list A) :
  (forall x, f (g x) = f x) ->
  find f (map g l) = option_map g (find f l).
Proof.
  intros Hfg. induction l as [|x l IH]; simpl; [reflexivity|].
  rewrite Hfg. destruct (f x); [reflexivity | exact IH].
Qed.

Lemma find_refine {A : Type} (f g : A -> bool) (l : list A) (x : A) :
  find f l = Some x -> g x = true ->
  find (fun y => f y && g y) l = Some x.
Proof.
  induction l as [|y l IH]; simpl; [discriminate|].
  destruct (f y) eqn:Hf; simpl.
  - intros [= ->] Hg. rewrite Hg. reflexivity.
  - auto.
Qed.

Lemma find_weaken {A : Type} (f g : A -> bool) (l : list A) (x : A) :
  find (fun y => f y && g y) l = Some x -> exists y, find f l = Some y.
Proof.
  induction l as [|z l IH]; simpl; [discriminate|].
  destruct (f z); simpl; [eauto|]. exact IH.
Qed.

Lemma transactionId_unused transactionId ps :
  existsb (fun p => (Payment.transactionId p =? transactionId)%string) ps
  = false ->
  ~ In transactionId (map Payment.transactionId ps).
Proof.
  intros H Hin. apply in_map_iff in Hin. destruct Hin as (p & Hp & Hin).
  assert (Ht : existsb (fun p => (Payment.transactionId p =? transactionId)
                                   %string) ps = true).
  { apply existsb_exists. exists p. split; [exact Hin|].
    apply String.eqb_eq. exact Hp. }
  congruence.
Qed.


(** A payment found by its [transactionId] and whose method is [prepaid] is
    the one the settlement selects. *)
Lemma selectPrepaidPayment_of_transactionId transactionId db p :
  selectPaymentByTransactionId transactionId db = Some p ->
  Payment.method p = PaymentMethod.prepaid ->
  selectPrepaidPayment transactionId db = Some p.
Proof.
  unfold selectPaymentByTransactionId, selectPrepaidPayment. intros Hp Hm.
  apply (find_refine _ (fun p => PaymentMethod.eqb (Payment.method p)
                                                   PaymentMethod.prepaid));
    [exact Hp | rewrite Hm; reflexivity].
Qed.

Lemma selectPaymentByTransactionId_key transactionId db p :
  selectPaymentByTransactionId transactionId db = Some p ->
  Payment.transactionId p = transactionId.
Proof.
  unfold selectPaymentByTransactionId. intros H.
  apply find_some in H. destruct H as [_ H]. now apply String.eqb_eq in H.
Qed.

(** What the two updates of a settlement leave to later lookups. *)
Lemma selectUserByUid_updateUserBalanceByUid uid balance db u :
  selectUserByUid uid db = Some u ->
  selectUserByUid uid (updateUserBalanceByUid uid balance db)
  = Some (setBalance balance u).
Proof.
  unfold selectUserByUid, updateUserBalanceByUid. simpl. intros H.
  rewrite find_map_stable.
  - rewrite H. simpl. apply find_some in H. destruct H as [_ H].
    rewrite H. reflexivity.
  - intros x. destruct (User.uid x =? uid)%string eqn:E; simpl; now rewrite E.
Qed.

Lemma selectPayment_updatePaymentCompleted transactionId now db p :
  selectPaymentByTransactionId transactionId db = Some p ->
  selectPaymentByTransactionId transactionId
    (updatePaymentCompleted transactionId now db)
  = Some (completePaymentRow transactionId now p).
Proof.
  unfold selectPaymentByTransactionId, updatePaymentCompleted. simpl.
  intros H. rewrite find_map_stable.
  - rewrite H. reflexivity.
  - intros x. unfold completePaymentRow.
    destruct (Payment.transactionId x =? transactionId)%string eqn:E; simpl;
      now rewrite E.
Qed.

Lemma selectPrepaid_updatePaymentCompleted transactionId now db p :
  selectPrepaidPayment transactionId db = Some p ->
  selectPrepaidPayment transactionId
    (updatePaymentCompleted transactionId now db)
  = Some (completePaymentRow transactionId now p).
Proof.
  unfold selectPrepaidPayment, updatePaymentCompleted. simpl.
  intros H. rewrite find_map_stable.
  - rewrite H. reflexivity.
  - intros x. unfold completePaymentRow.
    destruct (Payment.transactionId x =? transactionId)%string eqn:E; simpl;
      now rewrite E.
Qed.

(** ** [chunk] *)

Lemma firstn_plus {A : Type} (a b : nat) (l : list A) :
  firstn (a + b) l = firstn a l ++ firstn b (skipn a l).
Proof.
  revert l. induction a as [|a IH]; intros l; simpl; [reflexivity|].
  destruct l as [|x l]; simpl.
  - now rewrite firstn_nil.
  - now rewrite IH.
Qed.

Lemma concat_slices {A : Type} (size : nat) (l : list A) (k : nat) :
  List.concat
    (map (fun index => firstn size (skipn (index * size) l)) (seq 0 k))
  = firstn (k * size) l.
Proof.
  induction k as [|k IH]; [reflexivity|].
  rewrite seq_S, map_app, concat_app, IH. simpl.
  rewrite app_nil_r, (Nat.add_comm size), firstn_plus. reflexivity.
Qed.

(** The chunks, put end to end, are the array. *)
Lemma concat_chunk {A : Type} (l : list A) (size : nat) :
  (0 < size)%nat -> List.concat (chunk l size) = l.
Proof.
  intros Hsize. unfold chunk. rewrite concat_slices.
  apply firstn_all2.
  pose proof (Nat.div_mod_eq (List.length l + size - 1) size) as Hdiv.
  pose proof (Nat.mod_upper_bound (List.length l + size - 1) size) as Hmod.
  nia.
Qed.

(** ** Numbers *)

Lemma isSafeInteger_bounds z :
  Number.isSafeInteger z = true
  <-> - Number.MAX_SAFE_INTEGER <= z <= Number.MAX_SAFE_INTEGER.
Proof.
  unfold Number.isSafeInteger. rewrite andb_true_iff, !Z.leb_le. tauto.
Qed.

(** A safe integer is a double. *)
Lemma round_safe z :
  Z.abs z <= Number.MAX_SAFE_INTEGER -> Number.round z = Number.Finite z.
Proof.
  intros H. unfold Number.round. apply Z.leb_le in H. now rewrite H.
Qed.

(** Rounding does not bring an integer past the safe ones back among
    them. *)
Lemma round_large z :
  Number.MAX_SAFE_INTEGER < z ->
  Number.round z = Number.Infinity
  \/ exists m, Number.round z = Number.Finite m
               /\ Number.MAX_SAFE_INTEGER < m.
Proof.
  intros Hz. unfold Number.round.
  assert (Hpos : 0 < z) by (unfold Number.MAX_SAFE_INTEGER in Hz; lia).
  rewrite (Z.abs_eq z) by lia.
  destruct (z <=? Number.MAX_SAFE_INTEGER) eqn:E;
    [apply Z.leb_le in E; lia|]. clear E.
  replace (z <? 0) with false by (symmetry; apply Z.ltb_ge; lia).
  rewrite (Z.sgn_pos z Hpos), Z.mul_1_l.
  set (ulp := 2 ^ (Z.log2 z - 52)).
  set (q := z / ulp).
  match goal with
  | |- context [(if ?b then q + 1 else q) * ulp] => set (up := b)
  end.
  destruct (2 ^ 1024 <=? _); [left; reflexivity|].
  right. eexists. split; [reflexivity|].
  assert (Hlog : 53 <= Z.log2 z).
  { change 53 with (Z.log2 (2 ^ 53)). apply Z.log2_le_mono.
    unfold Number.MAX_SAFE_INTEGER in Hz. simpl. lia. }
  assert (Hulp : 2 <= ulp).
  { unfold ulp. change 2 with (2 ^ 1) at 1.
    apply Z.pow_le_mono_r; lia. }
  assert (Hq : 2 ^ 52 <= q).
  { unfold q. apply Z.div_le_lower_bound; [lia|].
    unfold ulp. rewrite <- Z.pow_add_r by lia.
    replace (Z.log2 z - 52 + 52) with (Z.log2 z) by lia.
    apply Z.log2_spec. exact Hpos. }
  assert (Hm : q * ulp <= (if up then q + 1 else q) * ulp).
  { destruct up; nia. }
  change (2 ^ 52) with 4503599627370496 in Hq.
  unfold Number.MAX_SAFE_INTEGER. nia.
Qed.

Lemma strictEquals_Finite a z :
  Number.strictEquals a (Number.Finite z) = true <-> a = Number.Finite z.
Proof.
  destruct a as [x| | |]; simpl; split; try discriminate.
  - intros H. apply Z.eqb_eq in H. now subst.
  - intros [= ->]. apply Z.eqb_refl.
Qed.

(** ** The total of an order *)

Lemma linesTotal_map {A B : Type} (f : A -> B) (price quantity : B -> Z)
    (l : list A) :
  linesTotal price quantity (map f l)
  = linesTotal (fun a => price (f a)) (fun a => quantity (f a)) l.
Proof. induction l as [|x l IH]; simpl; [reflexivity | now rewrite IH]. Qed.

Lemma findItem_price itemData detail item :
  findItem itemData detail = Some item ->
  Item.jan_code item = Detail.productId detail
  /\ Item.price item = Detail.price detail.
Proof.
  unfold findItem. intros H. apply find_some in H. destruct H as [_ H].
  apply andb_true_iff in H. destruct H as [H1 H2].
  apply String.eqb_eq in H1. apply Z.eqb_eq in H2. auto.
Qed.

Lemma findItem_none itemData detail :
  (forall item, In item itemData ->
                ~ (Item.jan_code item = Detail.productId detail
                   /\ Item.price item = Detail.price detail)) ->
  findItem itemData detail = None.
Proof.
  unfold findItem. induction itemData as [|item items IH]; intros H; simpl;
    [reflexivity|].
  destruct ((Item.jan_code item =? Detail.productId detail)%string
            && (Item.price item =? Detail.price detail)) eqn:E.
  - exfalso. apply andb_true_iff in E. destruct E as [E1 E2].
    apply String.eqb_eq in E1. apply Z.eqb_eq in E2.
    apply (H item); [left; reflexivity | auto].
  - apply IH. intros i Hi. apply H. right. exact Hi.
Qed.

Lemma fold_addDetail_thrown itemData details :
  fold_left (addDetail itemData) details None = None.
Proof. induction details as [|d ds IH]; simpl; [reflexivity | exact IH]. Qed.

(** A line the catalog does not know throws, wherever it stands. *)
Lemma computeTotal_unknown itemData details detail :
  In detail details ->
  findItem itemData detail = None ->
  computeTotal itemData details = None.
Proof.
  unfold computeTotal. generalize (Some (Number.Finite 0)).
  induction details as [|d ds IH]; intros acc Hin Hnone; [destruct Hin|].
  simpl. destruct Hin as [-> | Hin].
  - unfold addDetail at 2. rewrite Hnone.
    destruct acc; apply fold_addDetail_thrown.
  - apply IH; assumption.
Qed.

(** With no negative price or quantity the accumulator only grows: once
    past the safe integers it stays there. *)
Lemma add_line_large acc price quantity :
  large acc -> 0 <= price -> 0 <= quantity ->
  large (Number.add acc (Number.mul (Number.Finite price)
                                    (Number.Finite quantity))).
Proof.
  intros Hacc Hp Hq. cbn [Number.mul].
  assert (Hpq : 0 <= price * quantity) by nia.
  destruct (Z_le_gt_dec (price * quantity) Number.MAX_SAFE_INTEGER) as [Hs|Hl].
  - rewrite round_safe by lia.
    destruct Hacc as [-> | (a & -> & Ha)]; [left; reflexivity|].
    cbn [Number.add]. apply round_large. lia.
  - destruct (round_large (price * quantity)) as [-> | (m & -> & Hm)]; [lia| |].
    + destruct Hacc as [-> | (a & -> & Ha)]; left; reflexivity.
    + destruct Hacc as [-> | (a & -> & Ha)]; [left; reflexivity|].
      cbn [Number.add]. apply round_large.
      unfold Number.MAX_SAFE_INTEGER in *. lia.
Qed.

Lemma fold_addDetail_large itemData details : forall acc,
  Forall (fun d => 0 <= Detail.price d /\ 0 <= Detail.quantity d) details ->
  large acc ->
  fold_left (addDetail itemData) details (Some acc) = None
  \/ exists total,
       fold_left (addDetail itemData) details (Some acc) = Some total
       /\ large total.
Proof.
  induction details as [|d ds IH]; intros acc Hpos Hacc;
    cbn [fold_left addDetail].
  - right. eauto.
  - inversion Hpos as [|? ? [Hp Hq] Hrest]; subst.
    destruct (findItem itemData d) as [item|] eqn:Hitem.
    + apply IH; [exact Hrest|].
      apply findItem_price in Hitem. destruct Hitem as [_ ->].
      apply add_line_large; assumption.
    + left. apply fold_addDetail_thrown.
Qed.

(** With no negative price or quantity, a reduction that ends on a safe
    integer has rounded nothing: its result is the sum of
    [price * quantity]. *)
Lemma fold_addDetail_exact itemData details : forall acc total,
  Forall (fun d => 0 <= Detail.price d /\ 0 <= Detail.quantity d) details ->
  0 <= acc ->
  fold_left (addDetail itemData) details (Some (Number.Finite acc))
  = Some (Number.Finite total) ->
  total <= Number.MAX_SAFE_INTEGER ->
  total = acc + linesTotal Detail.price Detail.quantity details.
Proof.
  induction details as [|d ds IH]; intros acc total Hpos Hacc;
    cbn [fold_left addDetail].
  - intros [= <-] _. simpl. lia.
  - inversion Hpos as [|? ? [Hp Hq] Hrest]; subst.
    destruct (findItem itemData d) as [item|] eqn:Hitem;
      [|rewrite fold_addDetail_thrown; discriminate].
    apply findItem_price in Hitem. destruct Hitem as [_ ->].
    assert (Hpq : 0 <= Detail.price d * Detail.quantity d) by nia.
    destruct (Z_le_gt_dec (acc + Detail.price d * Detail.quantity d)
                          Number.MAX_SAFE_INTEGER) as [Hs|Hl].
    + cbn [Number.mul]. rewrite round_safe by lia.
      cbn [Number.add]. rewrite round_safe by lia.
      intros H Hsafe.
      apply IH in H; [simpl; lia | exact Hrest | lia | exact Hsafe].
    + intros H Hsafe. exfalso.
      assert (Hlarge : large (Number.add
                                (Number.Finite acc)
                                (Number.mul (Number.Finite (Detail.price d))
                                            (Number.Finite (Detail.quantity d))))).
      { cbn [Number.mul].
        destruct (Z_le_gt_dec (Detail.price d * Detail.quantity d)
                              Number.MAX_SAFE_INTEGER) as [Hs'|Hl'].
        - rewrite round_safe by lia. cbn [Number.add].
          apply round_large. lia.
        - destruct (round_large (Detail.price d * Detail.quantity d))
            as [-> | (m & -> & Hm)]; [lia | left; reflexivity|].
          cbn [Number.add]. apply round_large. lia. }
      destruct (fold_addDetail_large itemData ds _ Hrest Hlarge)
        as [Hnone | (t & Ht & Hbig)].
      * rewrite Hnone in H. discriminate.
      * rewrite Ht in H. injection H as ->.
        destruct Hbig as [Hinf | (m & [= <-] & Hm)]; [discriminate | lia].
Qed.

Lemma computeTotal_exact itemData details total :
  Forall (fun d => 0 <= Detail.price d /\ 0 <= Detail.quantity d) details ->
  computeTotal itemData details = Some (Number.Finite total) ->
  total <= Number.MAX_SAFE_INTEGER ->
  total = linesTotal Detail.price Detail.quantity details.
Proof.
  intros Hpos H Hsafe.
  apply fold_addDetail_exact in H; [lia | exact Hpos | lia | exact Hsafe].
Qed.

(** A catalog whose every price is a safe integer parses to its rows. *)
Lemma parse_each_map {A B : Type} (check : A -> bool) (f : A -> B) xs :
  forall ys,
    parse_each (fun x => if check x then Some (f x) else None) xs = Some ys ->
    ys = map f xs.
Proof.
  induction xs as [|x xs IH]; intros ys; simpl.
  - intros [= <-]. reflexivity.
  - destruct (check x); [|discriminate].
    destruct (parse_each _ xs) as [ys'|]; [|discriminate].
    intros [= <-]. now rewrite (IH ys').
Qed.

Lemma parse_products itemData rows :
  parse_each (fun item => productInsertSchema (productOfItem item)) itemData
  = Some rows ->
  rows = map productOfItem itemData.
Proof.
  apply (parse_each_map (fun item => Number.isSafeInteger (Item.price item))
                        productOfItem).
Qed.

Lemma parse_details orderId details values :
  parse_each (fun detail =>
                orderDetailInsertSchema (detailValues orderId detail))
             details = Some values ->
  values = map (detailValues orderId) details.
Proof.
  apply (parse_each_map
           (fun detail => Number.isSafeInteger (Detail.price detail)
                          && Number.isSafeInteger (Detail.quantity detail))
           (detailValues orderId)).
Qed.

(** ** Fresh rowids *)

Lemma max_rowid_ge ids i : In i ids -> i <= max_rowid ids.
Proof.
  induction ids as [|j ids IH]; simpl; [intros []|].
  intros [-> | Hin]; [lia | specialize (IH Hin); lia].
Qed.

Lemma next_rowid_fresh last ids i : In i ids -> i <> next_rowid last ids.
Proof. intros Hin. apply max_rowid_ge in Hin. unfold next_rowid. lia. Qed.

Lemma updateOrderStatus_fresh (rows : list Order.t) last status row :
  Order.id row = next_rowid last (map Order.id rows) ->
  map (fun o => if Order.id o =? Order.id row
                then {| Order.id := Order.id o;
                        Order.totalAmount := Order.totalAmount o;
                        Order.status := status |}
                else o) (rows ++ [row])
  = rows ++ [ {| Order.id := Order.id row;
                 Order.totalAmount := Order.totalAmount row;
                 Order.status := status |} ].
Proof.
  intros Hid. rewrite map_app. simpl. rewrite Z.eqb_refl. f_equal.
  rewrite <- (map_id rows) at 2. apply map_ext_in. intros o Ho.
  destruct (Order.id o =? Order.id row) eqn:E; [|reflexivity].
  apply Z.eqb_eq in E. exfalso.
  apply (next_rowid_fresh last (map Order.id rows) (Order.id o)).
  - apply in_map. exact Ho.
  - congruence.
Qed.

(** ** The loops of [POST /api/orders/]

    The catalog loop writes [products] only, the detail loop [order_details]
    only, whether or not a statement of theirs fails. *)

(** A loop of checked statements is only left by an exception. *)
Lemma for_each_checked_throws {A : Type} (w : A -> Db -> option Db) xs :
  forall db db' r,
    for_each xs (fun x => exec_checked (w x)) db = (db', inl r) ->
    r = InternalServerError.
Proof.
  induction xs as [|x xs IH]; intros db db' r; simpl.
  - discriminate.
  - unfold bind, exec_checked. destruct (w x db) as [db1|].
    + apply IH.
    + intros [= _ <-]. reflexivity.
Qed.

Lemma with_products_id db : with_products (products db) db = db.
Proof. destruct db; reflexivity. Qed.

Lemma with_orderDetails_id db :
  with_orderDetails (orderDetails db) (seq_orderDetails db) db = db.
Proof. destruct db; reflexivity. Qed.

Lemma upsert_loop_frame batches : forall db db' x,
  for_each batches (fun b => exec_checked (upsertProducts b)) db = (db', x) ->
  db' = with_products (products db') db.
Proof.
  induction batches as [|b bs IH]; intros db db' x; simpl.
  - unfold ret. intros [= <- _]. symmetry. apply with_products_id.
  - unfold bind, exec_checked, upsertProducts.
    destruct (upsertProductRows (products db) b) as [rows|].
    + intros H. apply IH in H. rewrite H. reflexivity.
    + intros [= <- _]. symmetry. apply with_products_id.
Qed.

Lemma syncCatalog_frame itemData db db' x :
  syncCatalog itemData db = (db', x) ->
  db' = with_products (products db') db.
Proof.
  unfold syncCatalog, bind, parse.
  destruct (parse_each _ itemData) as [rows|].
  - apply upsert_loop_frame.
  - intros [= <- _]. symmetry. apply with_products_id.
Qed.

(** The catalog sync is only left by an exception. *)
Lemma syncCatalog_throws itemData db db' r :
  syncCatalog itemData db = (db', inl r) -> r = InternalServerError.
Proof.
  unfold syncCatalog, bind, parse.
  destruct (parse_each _ itemData) as [rows|].
  - apply for_each_checked_throws.
  - intros [= _ <-]. reflexivity.
Qed.

(** A sync that completes has parsed every entry and run the loop. *)
Lemma syncCatalog_loop itemData db db' :
  syncCatalog itemData db = (db', inr tt) ->
  for_each (chunk (map productOfItem itemData) 10)
           (fun b => exec_checked (upsertProducts b)) db
  = (db', inr tt).
Proof.
  unfold syncCatalog, bind, parse.
  destruct (parse_each _ itemData) as [rows|] eqn:Hrows; [|discriminate].
  apply parse_products in Hrows. now subst rows.
Qed.

Lemma detail_loop_frame batches : forall db db' x,
  for_each batches (fun b => exec_checked (insertOrderDetails b)) db
  = (db', x) ->
  db' = with_orderDetails (orderDetails db') (seq_orderDetails db') db.
Proof.
  induction batches as [|b bs IH]; intros db db' x; simpl.
  - unfold ret. intros [= <- _]. symmetry. apply with_orderDetails_id.
  - unfold bind, exec_checked, insertOrderDetails.
    destruct (insertOrderDetailRows (orderDetails db, seq_orderDetails db) b)
      as [[rows last]|].
    + intros H. apply IH in H. rewrite H. reflexivity.
    + intros [= <- _]. symmetry. apply with_orderDetails_id.
Qed.

(** When the detail loop completes, [order_details] has grown by one row per
    value, in order. *)
Lemma insertOrderDetailRows_appends batch : forall rows last rows' last',
  insertOrderDetailRows (rows, last) batch = Some (rows', last') ->
  exists new, rows' = rows ++ new /\ map valuesOf new = batch.
Proof.
  induction batch as [|v vs IH]; intros rows last rows' last'; simpl.
  - intros [= <- _]. exists []. now rewrite app_nil_r.
  - destruct (existsb _ rows); [discriminate|].
    intros H. apply IH in H. destruct H as (new & -> & Hnew).
    eexists (_ :: new). rewrite <- app_assoc. simpl. split; [reflexivity|].
    rewrite Hnew. destruct v; reflexivity.
Qed.

Lemma detail_loop_appends batches : forall db db',
  for_each batches (fun b => exec_checked (insertOrderDetails b)) db
  = (db', inr tt) ->
  exists new, orderDetails db' = orderDetails db ++ new
              /\ map valuesOf new = List.concat batches.
Proof.
  induction batches as [|b bs IH]; intros db db'; simpl.
  - unfold ret. intros [= <-]. exists []. now rewrite app_nil_r.
  - unfold bind, exec_checked, insertOrderDetails.
    destruct (insertOrderDetailRows (orderDetails db, seq_orderDetails db) b)
      as [[rows last]|] eqn:Hb; [|discriminate].
    intros H. apply IH in H. destruct H as (new2 & H2 & Hnew2).
    apply insertOrderDetailRows_appends in Hb.
    destruct Hb as (new1 & -> & Hnew1).
    exists (new1 ++ new2). simpl in H2. rewrite H2, app_assoc, map_app.
    split; [reflexivity | congruence].
Qed.

Section Service.

Variable env : Bindings.

(** ** Settlement of a prepaid payment *)

(** The settlement of a pending prepaid payment by a user whose balance
    covers it, statement by statement: the balance and the payment are
    written, then the [parse] of the history values throws. *)
Lemma post_prepaid_pay_debits db uid transactionId now p u :
  selectPaymentByTransactionId transactionId db = Some p ->
  Payment.method p = PaymentMethod.prepaid ->
  Payment.status p = PaymentStatus.pending ->
  selectUserByUid uid db = Some u ->
  Payment.amount p <= User.balance u ->
  handle env db (PostPrepaidPay (Some uid) transactionId now)
  = (updatePaymentCompleted transactionId now
       (updateUserBalanceByUid uid (User.balance u - Payment.amount p) db),
     InternalServerError).
Proof.
  intros Hp Hm Hs Hu Hle.
  pose proof (selectPrepaidPayment_of_transactionId _ _ _ Hp Hm) as Hpp.
  unfold handle, handler, serve, post_prepaid_pay, bind, query, exec, ret.
  rewrite Hpp, Hs. simpl. rewrite Hu.
  destruct (User.balance u - Payment.amount p <? 0) eqn:E;
    [apply Z.ltb_lt in E; lia|].
  assert (Hre : selectPaymentByTransactionId transactionId
                  (updatePaymentCompleted transactionId now
                     (updateUserBalanceByUid uid
                        (User.balance u - Payment.amount p) db))
                = Some (completePaymentRow transactionId now p)).
  { apply selectPayment_updatePaymentCompleted. exact Hp. }
  rewrite Hre. reflexivity.
Qed.

(** A settlement the balance does not cover writes nothing. *)
Lemma post_prepaid_pay_insufficient db uid transactionId now p u :
  selectPrepaidPayment transactionId db = Some p ->
  Payment.status p = PaymentStatus.pending ->
  selectUserByUid uid db = Some u ->
  User.balance u < Payment.amount p ->
  handle env db (PostPrepaidPay (Some uid) transactionId now)
  = (db, insufficientBalance).
Proof.
  intros Hp Hs Hu Hlt.
  unfold handle, handler, serve, post_prepaid_pay, bind, query.
  rewrite Hp, Hs. simpl. rewrite Hu.
  destruct (User.balance u - Payment.amount p <? 0) eqn:E.
  - reflexivity.
  - apply Z.ltb_ge in E. lia.
Qed.

(** C4.  Settling a pending prepaid payment whose amount exceeds the user's
    balance answers 400 "Insufficient balance" and leaves the database as it
    was: the balance, the payment (still pending) and the transaction
    history are those of before. *)
Theorem C4_insufficient_balance_rejects db uid transactionId now p u :
  selectPrepaidPayment transactionId db = Some p ->
  Payment.status p = PaymentStatus.pending ->
  selectUserByUid uid db = Some u ->
  User.balance u < Payment.amount p ->
  let (db', r) := handle env db (PostPrepaidPay (Some uid) transactionId now)
  in
  r = Json (ErrorBody "Insufficient balance") 400
  /\ db' = db
  /\ selectUserByUid uid db' = Some u
  /\ selectPrepaidPayment transactionId db' = Some p
  /\ transactionHistory db' = transactionHistory db.
Proof.
  intros Hp Hs Hu Hlt.
  rewrite (post_prepaid_pay_insufficient db uid transactionId now p u)
    by assumption.
  auto.
Qed.

(** A settlement of a payment that is not pending is refused. *)
Lemma post_prepaid_pay_not_pending db uid transactionId now p :
  selectPrepaidPayment transactionId db = Some p ->
  Payment.status p <> PaymentStatus.pending ->
  handle env db (PostPrepaidPay (Some uid) transactionId now)
  = (db, Json (ErrorBody "Payment is not pending") 400).
Proof.
  intros Hp Hs.
  unfold handle, handler, serve, post_prepaid_pay, bind, query.
  rewrite Hp. destruct (Payment.status p); [contradiction| |]; reflexivity.
Qed.

(** Two settlements of one payment, one after the other: the first debits
    and completes, the second is refused. *)
Lemma post_prepaid_pay_twice db uid uid' transactionId now now' p u :
  selectPaymentByTransactionId transactionId db = Some p ->
  Payment.method p = PaymentMethod.prepaid ->
  Payment.status p = PaymentStatus.pending ->
  selectUserByUid uid db = Some u ->
  Payment.amount p <= User.balance u ->
  let db1 := updatePaymentCompleted transactionId now
               (updateUserBalanceByUid
                  uid (User.balance u - Payment.amount p) db) in
  run env db [PostPrepaidPay (Some uid) transactionId now;
              PostPrepaidPay (Some uid') transactionId now']
  = (db1, [InternalServerError;
           Json (ErrorBody "Payment is not pending") 400])
  /\ selectUserByUid uid db1
     = Some (setBalance (User.balance u - Payment.amount p) u)
  /\ selectPaymentByTransactionId transactionId db1
     = Some (completePaymentRow transactionId now p)
  /\ transactionHistory db1 = transactionHistory db.
Proof.
  intros Hp Hm Hs Hu Hle db1.
  pose proof (post_prepaid_pay_debits db uid transactionId now p u
                Hp Hm Hs Hu Hle) as H1.
  simpl run. rewrite H1. fold db1.
  assert (Hsel : selectPrepaidPayment transactionId db1
                 = Some (completePaymentRow transactionId now p)).
  { apply selectPrepaid_updatePaymentCompleted.
    apply selectPrepaidPayment_of_transactionId; assumption. }
  split; [|split; [|split]].
  - rewrite (post_prepaid_pay_not_pending db1 uid' transactionId now' _ Hsel);
      [reflexivity|].
    unfold completePaymentRow.
    rewrite (selectPaymentByTransactionId_key _ _ _ Hp), String.eqb_refl.
    discriminate.
  - apply (selectUserByUid_updateUserBalanceByUid uid _ db u Hu).
  - apply selectPayment_updatePaymentCompleted. exact Hp.
  - reflexivity.
Qed.

(** ** What an order request does *)

(** An order request ends in one of three ways: refused before any order is
    written, only the catalog having been upserted; an exception after the
    order row was written, which stays behind alone; or the order, its
    details and its payment written, and the answer 200.  It writes neither
    [users] nor [transaction_history]. *)
Lemma post_orders_outcome db fetched txnId requestData db' r :
  serve (post_orders env fetched txnId requestData) db = (db', r) ->
  let details := CreateTransactionApiRequest.details requestData in
  let total := CreateTransactionApiRequest.totalAmount requestData in
  let method := CreateTransactionApiRequest.paymentMethod requestData in
  let oid := next_rowid (seq_orders db) (map Order.id (orders db)) in
  users db' = users db
  /\ transactionHistory db' = transactionHistory db
  /\ ((db' = with_products (products db') db
       /\ (r = InternalServerError
           \/ r = Json (ErrorBody "Unknown product") 400
           \/ r = Json (ErrorBody "Invalid totalAmount") 400))
      \/ (r = InternalServerError
          /\ orders db'
             = orders db ++ [ {| Order.id := oid; Order.totalAmount := total;
                                 Order.status := OrderStatus.pending |} ]
          /\ payments db' = payments db)
      \/ (exists itemData db1 newDetails,
             fetched = Some itemData
             /\ syncCatalog itemData db = (db1, inr tt)
             /\ products db' = products db1
             /\ computeTotal itemData details = Some (Number.Finite total)
             /\ Number.isSafeInteger total = true
             /\ ~ In txnId (map Payment.transactionId (payments db))
             /\ r = Json (OrderBody
                            txnId total method (initialStatus method total)
                            (if PaymentStatus.eqb (initialStatus method total)
                                                  PaymentStatus.pending
                             then Some (payUrlOf env txnId) else None)) 200
             /\ orders db'
                = orders db
                  ++ [ {| Order.id := oid; Order.totalAmount := total;
                          Order.status :=
                            if PaymentStatus.eqb (initialStatus method total)
                                                 PaymentStatus.completed
                            then OrderStatus.completed
                            else OrderStatus.pending |} ]
             /\ orderDetails db' = orderDetails db ++ newDetails
             /\ map valuesOf newDetails = map (detailValues oid) details
             /\ payments db'
                = payments db
                  ++ [ {| Payment.id :=
                            next_rowid (seq_payments db)
                                       (map Payment.id (payments db));
                          Payment.orderId := oid;
                          Payment.userId := None;
                          Payment.transactionId := txnId;
                          Payment.amount := total;
                          Payment.method := method;
                          Payment.status := initialStatus method total;
                          Payment.paidAt := None |} ])).
Proof.
  unfold serve, post_orders. cbv zeta.
  destruct fetched as [itemData|].
  2:{ simpl. intros [= <- <-]. split; [reflexivity|]. split; [reflexivity|].
      left. split; [symmetry; apply with_products_id | auto]. }
  unfold bind at 1.
  destruct (syncCatalog itemData db) as [db1 [r1|[]]] eqn:Hsync;
    pose proof (syncCatalog_frame _ _ _ _ Hsync) as Hframe.
  { apply syncCatalog_throws in Hsync. subst r1. intros [= <- <-].
    rewrite Hframe at 1 2. split; [reflexivity|]. split; [reflexivity|].
    left. auto. }
  assert (Hdb1 : orders db1 = orders db /\ seq_orders db1 = seq_orders db
                 /\ orderDetails db1 = orderDetails db
                 /\ payments db1 = payments db
                 /\ seq_payments db1 = seq_payments db
                 /\ users db1 = users db
                 /\ transactionHistory db1 = transactionHistory db).
  { rewrite Hframe. simpl. repeat split. }
  destruct Hdb1 as (Ho & Hso & Hd & Hp & Hsp & Hu & Hh).
  destruct (computeTotal _ _) as [computed|] eqn:Htotal.
  2:{ simpl. intros [= <- <-]. split; [exact Hu|]. split; [exact Hh|].
      left. split; [exact Hframe | auto]. }
  destruct (Number.strictEquals computed _) eqn:Heq; cbn [negb].
  2:{ simpl. intros [= <- <-]. split; [exact Hu|]. split; [exact Hh|].
      left. split; [exact Hframe | auto]. }
  apply strictEquals_Finite in Heq. subst computed.
  unfold bind at 1, parse at 1, orderInsertSchema.
  destruct (Number.isSafeInteger _) eqn:Hsafe.
  2:{ intros [= <- <-]. split; [exact Hu|]. split; [exact Hh|].
      left. split; [exact Hframe | auto]. }
  cbn [fst snd].
  unfold bind at 1, returning at 1, insertOrder.
  unfold bind at 1, parse at 1.
  set (oid := next_rowid (seq_orders db1) (map Order.id (orders db1))).
  assert (Hoid : oid = next_rowid (seq_orders db) (map Order.id (orders db))).
  { unfold oid. now rewrite Ho, Hso. }
  cbn [Order.id].
  destruct (parse_each _ (CreateTransactionApiRequest.details requestData))
    as [values|] eqn:Hvalues.
  2:{ intros [= <- <-]. simpl. rewrite Ho, Hp, Hu, Hh, Hoid.
      split; [reflexivity|]. split; [reflexivity|]. right. left. auto. }
  apply parse_details in Hvalues. subst values.
  unfold bind at 1.
  match goal with
  | |- context [for_each ?bs ?body ?d] =>
      destruct (for_each bs body d) as [db3 [r3|[]]] eqn:Hloop
  end; pose proof (detail_loop_frame _ _ _ _ Hloop) as Hframe3.
  { apply for_each_checked_throws in Hloop. subst r3. intros [= <- <-].
    rewrite Hframe3. simpl. rewrite Ho, Hp, Hu, Hh, Hoid.
    split; [reflexivity|]. split; [reflexivity|]. right. left. auto. }
  apply detail_loop_appends in Hloop. destruct Hloop as (new & Hnew & Hvals).
  rewrite concat_chunk in Hvals by lia. simpl in Hnew.
  assert (Hdb3 : orders db3
                 = orders db
                   ++ [ {| Order.id := oid;
                           Order.totalAmount :=
                             CreateTransactionApiRequest.totalAmount
                               requestData;
                           Order.status := OrderStatus.pending |} ]
                 /\ payments db3 = payments db
                 /\ seq_payments db3 = seq_payments db
                 /\ users db3 = users db
                 /\ transactionHistory db3 = transactionHistory db
                 /\ products db3 = products db1).
  { rewrite Hframe3. simpl. rewrite Ho, Hp, Hsp, Hu, Hh. repeat split. }
  destruct Hdb3 as (Ho3 & Hp3 & Hsp3 & Hu3 & Hh3 & Hpr3).
  unfold bind at 1, parse at 1, paymentInsertSchema. rewrite Hsafe.
  unfold bind at 1, returning_checked at 1, insertPayment.
  destruct (existsb _ (payments db3)) eqn:Hex.
  { intros [= <- <-]. rewrite Hoid in Ho3.
    split; [exact Hu3|]. split; [exact Hh3|]. right. left. auto. }
  rewrite Hp3 in Hex. apply transactionId_unused in Hex.
  unfold bind at 1.
  set (st := initialStatus _ _).
  cbn [Payment.status Payment.transactionId Payment.amount Payment.method
       Payment.id Order.id].
  intros Hrun.
  assert (Hfields : users db' = users db
                    /\ transactionHistory db' = transactionHistory db
                    /\ products db' = products db1
                    /\ orderDetails db' = orderDetails db3
                    /\ payments db'
                       = payments db3
                         ++ [ {| Payment.id :=
                                   next_rowid (seq_payments db3)
                                              (map Payment.id (payments db3));
                                 Payment.orderId := oid;
                                 Payment.userId := None;
                                 Payment.transactionId := txnId;
                                 Payment.amount :=
                                   CreateTransactionApiRequest.totalAmount
                                     requestData;
                                 Payment.method :=
                                   CreateTransactionApiRequest.paymentMethod
                                     requestData;
                                 Payment.status := st;
                                 Payment.paidAt := None |} ]
                    /\ orders db'
                       = (if PaymentStatus.eqb st PaymentStatus.completed
                          then orders (updateOrderStatus
                                         oid OrderStatus.completed db3)
                          else orders db3)
                    /\ r = Json (OrderBody
                                   txnId
                                   (CreateTransactionApiRequest.totalAmount
                                      requestData)
                                   (CreateTransactionApiRequest.paymentMethod
                                      requestData)
                                   st
                                   (if PaymentStatus.eqb st PaymentStatus.pending
                                    then Some (payUrlOf env txnId) else None))
                                200).
  { revert Hrun.
    destruct (PaymentStatus.eqb st PaymentStatus.completed);
      simpl; intros [= <- <-]; simpl; rewrite ?Hu3, ?Hh3, ?Hpr3;
      repeat split. }
  clear Hrun.
  destruct Hfields as (Hu' & Hh' & Hpr' & Hd' & Hp' & Ho' & Hr).
  split; [exact Hu'|]. split; [exact Hh'|]. right. right.
  exists itemData, db1, new.
  rewrite Hd in Hnew. rewrite <- Hoid.
  split; [reflexivity|]. split; [exact Hsync|]. split; [exact Hpr'|].
  split; [exact Htotal|]. split; [reflexivity|]. split; [exact Hex|].
  split; [exact Hr|]. split.
  { rewrite Ho'. destruct (PaymentStatus.eqb st PaymentStatus.completed);
      [|exact Ho3].
    unfold updateOrderStatus. simpl. rewrite Ho3.
    apply (updateOrderStatus_fresh (orders db) (seq_orders db)
             OrderStatus.completed
             {| Order.id := oid;
                Order.totalAmount :=
                  CreateTransactionApiRequest.totalAmount requestData;
                Order.status := OrderStatus.pending |}).
    exact Hoid. }
  split; [rewrite Hd'; exact Hnew|]. split; [exact Hvals|].
  rewrite Hp', Hp3, Hsp3. reflexivity.
Qed.

(** ** What a request leaves untouched *)

(** An order request writes neither [users] nor [transaction_history], and
    at most appends one payment, which has no [user_id]. *)
Lemma post_orders_frame db fetched txnId requestData db' r :
  serve (post_orders env fetched txnId requestData) db = (db', r) ->
  users db' = users db
  /\ transactionHistory db' = transactionHistory db
  /\ (payments db' = payments db
      \/ exists row, payments db' = payments db ++ [row]
                     /\ Payment.userId row = None).
Proof.
  intros H. apply post_orders_outcome in H. cbv zeta in H.
  destruct H as (Hu & Hh & [(Hdb & _) | [(_ & _ & Hp) | H]]);
    (split; [exact Hu|]); (split; [exact Hh|]).
  - left. rewrite Hdb. reflexivity.
  - left. exact Hp.
  - destruct H as (itemData & db1 & new & _ & _ & _ & _ & _ & _ & _ & _ & _
                   & _ & Hp).
    right. eexists. split; [exact Hp | reflexivity].
Qed.

(** ** The balance invariant *)

Lemma balances_nonneg_update (hit : User.t -> bool) balance db :
  0 <= balance ->
  balances_nonneg db ->
  Forall (fun u => 0 <= User.balance u)
         (map (fun u => if hit u then setBalance balance u else u) (users db)).
Proof.
  intros Hb Hdb. apply Forall_map. unfold balances_nonneg in Hdb.
  eapply Forall_impl; [|exact Hdb].
  intros u Hu. destruct (hit u); [exact Hb | exact Hu].
Qed.

Lemma selectUserByUid_balance uid db u :
  balances_nonneg db -> selectUserByUid uid db = Some u -> 0 <= User.balance u.
Proof.
  unfold balances_nonneg, selectUserByUid. intros Hdb Hu.
  apply find_some in Hu. destruct Hu as [Hin _].
  rewrite Forall_forall in Hdb. auto.
Qed.

(** Every request keeps every balance non-negative. *)
Lemma handle_balances_nonneg db req :
  balances_nonneg db -> balances_nonneg (fst (handle env db req)).
Proof.
  intros Hdb. destruct req as [fetched txnId requestData | transactionId body
                              | transactionId | uid | uid transactionId
                              | uid transactionId now]; unfold handle, handler.
  - (* order: [users] is not written *)
    destruct (serve _ db) as [db' r] eqn:H.
    apply post_orders_frame in H. destruct H as [Hu _].
    unfold balances_nonneg. simpl. rewrite Hu. exact Hdb.
  - (* charge: a positive amount is added *)
    unfold serve, put_admin_prepaid_charge, bind, query, exec, ret.
    destruct (adminPrepaidChargeApiRequestSchema body) eqn:Hv;
      [|exact Hdb]. simpl.
    destruct (selectUserByUid _ db) as [u|] eqn:Hu; [|exact Hdb]. simpl.
    unfold adminPrepaidChargeApiRequestSchema in Hv.
    apply andb_true_iff in Hv. destruct Hv as [_ Hpos].
    apply Z.ltb_lt in Hpos.
    pose proof (selectUserByUid_balance _ _ _ Hdb Hu).
    apply balances_nonneg_update; [lia | exact Hdb].
  - (* payment detail: reads only *)
    unfold serve, get_payment, bind, query.
    destruct (selectPayment db); exact Hdb.
  - (* profile: a new user starts at 0 *)
    destruct uid as [uid|]; [|exact Hdb].
    unfold serve, get_profile, bind, query, returning_checked, insertUser, ret.
    destruct (selectUserByUid uid db); [exact Hdb|].
    destruct (existsb _ (users db)); [exact Hdb|].
    unfold balances_nonneg. simpl. apply Forall_app. split; [exact Hdb|].
    constructor; [simpl; lia | constructor].
  - (* prepaid payment detail: reads only *)
    destruct uid as [uid|]; [|exact Hdb].
    unfold serve, get_prepaid_pay, bind, query.
    destruct (selectPrepaidPayment transactionId db); exact Hdb.
  - (* settlement: the new balance was checked against 0 *)
    destruct uid as [uid|]; [|exact Hdb].
    unfold serve, post_prepaid_pay, bind, query, exec, ret.
    destruct (selectPrepaidPayment transactionId db) as [p|]; [|exact Hdb].
    destruct (negb _); [exact Hdb|].
    destruct (selectUserByUid uid db) as [u|]; [|exact Hdb].
    destruct (User.balance u - Payment.amount p <? 0) eqn:E; [exact Hdb|].
    apply Z.ltb_ge in E.
    assert (Hup : balances_nonneg
                    (updateUserBalanceByUid uid
                       (User.balance u - Payment.amount p) db)).
    { apply (balances_nonneg_update
               (fun u => (User.uid u =? uid)%string));
        [exact E | exact Hdb]. }
    destruct (selectPaymentByTransactionId _ _); exact Hup.
Qed.

(** C2.  In every state the service reaches, every user's balance is at
    least 0: a user is created with balance 0, a charge adds a positive
    amount, and a settlement writes a new balance only after checking that
    it is not negative. *)
Theorem C2_balance_never_negative db :
  reachable env db ->
  forall u, In u (users db) -> 0 <= User.balance u.
Proof.
  intros Hreach. apply Forall_forall. change (balances_nonneg db).
  induction Hreach as [|db req _ IH].
  - constructor.
  - apply handle_balances_nonneg. exact IH.
Qed.

(** ** The owner of a payment *)

Lemma completePaymentRow_setOwner owner transactionId now p :
  completePaymentRow transactionId now (setOwner owner p)
  = setOwner owner (completePaymentRow transactionId now p).
Proof.
  unfold completePaymentRow. simpl.
  destruct (Payment.transactionId p =? transactionId)%string; reflexivity.
Qed.

Lemma updatePaymentCompleted_setOwners owner transactionId now db :
  updatePaymentCompleted transactionId now (setOwners owner db)
  = setOwners owner (updatePaymentCompleted transactionId now db).
Proof.
  unfold updatePaymentCompleted, setOwners, with_payments. simpl.
  f_equal. rewrite !map_map. apply map_ext. intros p.
  apply completePaymentRow_setOwner.
Qed.

Lemma selectPrepaidPayment_setOwners owner transactionId db :
  selectPrepaidPayment transactionId (setOwners owner db)
  = option_map (setOwner owner) (selectPrepaidPayment transactionId db).
Proof.
  unfold selectPrepaidPayment, setOwners. simpl.
  apply find_map_stable. reflexivity.
Qed.

Lemma selectPaymentByTransactionId_setOwners owner transactionId db :
  selectPaymentByTransactionId transactionId (setOwners owner db)
  = option_map (setOwner owner)
               (selectPaymentByTransactionId transactionId db).
Proof.
  unfold selectPaymentByTransactionId, setOwners. simpl.
  apply find_map_stable. reflexivity.
Qed.

(** A settlement answers, and writes, the same whatever the [user_id] of
    the payments. *)
Lemma post_prepaid_pay_setOwners owner db uid transactionId now :
  handle env (setOwners owner db) (PostPrepaidPay uid transactionId now)
  = (setOwners owner
       (fst (handle env db (PostPrepaidPay uid transactionId now))),
     snd (handle env db (PostPrepaidPay uid transactionId now))).
Proof.
  unfold handle, handler. destruct uid as [uid|]; [|reflexivity].
  unfold serve, post_prepaid_pay, bind, query, exec, ret.
  rewrite selectPrepaidPayment_setOwners.
  destruct (selectPrepaidPayment transactionId db) as [p|]; [|reflexivity].
  cbn [option_map].
  change (Payment.status (setOwner owner p)) with (Payment.status p).
  change (Payment.amount (setOwner owner p)) with (Payment.amount p).
  destruct (negb _); [reflexivity|].
  change (selectUserByUid uid (setOwners owner db))
    with (selectUserByUid uid db).
  destruct (selectUserByUid uid db) as [u|]; [|reflexivity].
  destruct (_ <? 0); [reflexivity|].
  change (updateUserBalanceByUid uid (User.balance u - Payment.amount p)
            (setOwners owner db))
    with (setOwners owner
            (updateUserBalanceByUid uid
               (User.balance u - Payment.amount p) db)).
  rewrite updatePaymentCompleted_setOwners.
  rewrite selectPaymentByTransactionId_setOwners.
  destruct (selectPaymentByTransactionId transactionId _) as [q|];
    reflexivity.
Qed.

(** A settlement leaves the [user_id] of every payment as it was. *)
Lemma post_prepaid_pay_keeps_owners db uid transactionId now :
  map Payment.userId
      (payments (fst (handle env db (PostPrepaidPay uid transactionId now))))
  = map Payment.userId (payments db).
Proof.
  assert (Hmap : forall d,
             map Payment.userId
                 (payments (updatePaymentCompleted transactionId now d))
             = map Payment.userId (payments d)).
  { intros d. unfold updatePaymentCompleted. simpl. rewrite map_map.
    apply map_ext. intros p. unfold completePaymentRow.
    destruct (Payment.transactionId p =? transactionId)%string; reflexivity. }
  unfold handle, handler. destruct uid as [uid|]; [|reflexivity].
  unfold serve, post_prepaid_pay, bind, query, exec, ret.
  destruct (selectPrepaidPayment transactionId db) as [p|]; [|reflexivity].
  destruct (negb _); [reflexivity|].
  destruct (selectUserByUid uid db) as [u|]; [|reflexivity].
  destruct (_ <? 0); [reflexivity|].
  destruct (selectPaymentByTransactionId transactionId _) as [q|];
    exact (Hmap (updateUserBalanceByUid uid _ db)).
Qed.

(** No request gives a payment a [user_id]. *)
Lemma handle_unowned db req :
  Forall (fun p => Payment.userId p = None) (payments db) ->
  Forall (fun p => Payment.userId p = None)
         (payments (fst (handle env db req))).
Proof.
  intros Hdb. destruct req as [fetched txnId requestData | transactionId body
                              | transactionId | uid | uid transactionId
                              | uid transactionId now].
  - unfold handle, handler. destruct (serve _ db) as [db' r] eqn:H.
    apply post_orders_frame in H. destruct H as (_ & _ & [Hp | (row & Hp & Hrow)]);
      simpl; rewrite Hp; [exact Hdb|].
    apply Forall_app. split; [exact Hdb | constructor; [exact Hrow | constructor]].
  - unfold handle, handler, serve, put_admin_prepaid_charge, bind, query,
      exec, ret.
    destruct (adminPrepaidChargeApiRequestSchema body); [|exact Hdb]. simpl.
    destruct (selectUserByUid _ db); exact Hdb.
  - unfold handle, handler, serve, get_payment, bind, query.
    destruct (selectPayment db); exact Hdb.
  - destruct uid as [uid|]; [|exact Hdb].
    unfold handle, handler, serve, get_profile, bind, query,
      returning_checked, insertUser, ret.
    destruct (selectUserByUid uid db); [exact Hdb|].
    destruct (existsb _ (users db)); exact Hdb.
  - destruct uid as [uid|]; [|exact Hdb].
    unfold handle, handler, serve, get_prepaid_pay, bind, query.
    destruct (selectPrepaidPayment transactionId db); exact Hdb.
  - rewrite Forall_forall in *. intros q Hq.
    apply (in_map Payment.userId) in Hq.
    rewrite post_prepaid_pay_keeps_owners in Hq.
    apply in_map_iff in Hq. destruct Hq as (q0 & <- & Hq0). auto.
Qed.

(** In every state the service reaches no payment has a [user_id]. *)
Lemma reachable_unowned db :
  reachable env db ->
  forall p, In p (payments db) -> Payment.userId p = None.
Proof.
  intros Hreach. apply Forall_forall.
  induction Hreach as [|db req _ IH].
  - constructor.
  - apply handle_unowned. exact IH.
Qed.

(** ** Order creation *)

(** What a created order is made of: the request passed both checks, and
    one order, its details and one payment were appended. *)
Lemma post_orders_created
    db fetched txnId requestData db' tid amount method status payUrl :
  handle env db (PostOrders fetched txnId requestData)
  = (db', Json (OrderBody tid amount method status payUrl) 200) ->
  let total := CreateTransactionApiRequest.totalAmount requestData in
  let oid := next_rowid (seq_orders db) (map Order.id (orders db)) in
  exists itemData newDetails,
    fetched = Some itemData
    /\ computeTotal itemData
         (CreateTransactionApiRequest.details requestData)
       = Some (Number.Finite total)
    /\ tid = txnId /\ amount = total
    /\ method = CreateTransactionApiRequest.paymentMethod requestData
    /\ status = initialStatus method total
    /\ payUrl = (if PaymentStatus.eqb status PaymentStatus.pending
                then Some (payUrlOf env txnId) else None)
    /\ orders db'
       = orders db
         ++ [ {| Order.id := oid;
                 Order.totalAmount := total;
                 Order.status :=
                   if PaymentStatus.eqb status PaymentStatus.completed
                   then OrderStatus.completed else OrderStatus.pending |} ]
    /\ orderDetails db' = orderDetails db ++ newDetails
    /\ map valuesOf newDetails
       = map (detailValues oid)
             (CreateTransactionApiRequest.details requestData)
    /\ payments db'
       = payments db
         ++ [ {| Payment.id :=
                   next_rowid (seq_payments db) (map Payment.id (payments db));
                 Payment.orderId := oid;
                 Payment.userId := None;
                 Payment.transactionId := txnId;
                 Payment.amount := total;
                 Payment.method := method;
                 Payment.status := status;
                 Payment.paidAt := None |} ]
    /\ Number.isSafeInteger total = true
    /\ ~ In txnId (map Payment.transactionId (payments db))
    /\ exists db1, syncCatalog itemData db = (db1, inr tt)
                   /\ products db' = products db1.
Proof.
  unfold handle, handler. intros H.
  apply post_orders_outcome in H. cbv zeta in H.
  destruct H as (_ & _ & [(_ & [H | [H | H]]) | [(H & _) | H]]);
    try discriminate H.
  destruct H as (itemData & db1 & new & Hf & Hsync & Hpr & Htotal & Hsafe
                 & Hnew & Hr & Ho & Hd & Hvals & Hp).
  injection Hr as -> -> -> -> ->.
  exists itemData, new. cbv zeta. repeat split; try assumption.
  exists db1. split; assumption.
Qed.

(** C5, as amended.  A created order has the total it declares: the
    [amount] answered, the [totalAmount] of the order row and the [amount]
    of the payment row are the declared total, a safe integer, and so is the
    sum of [price * quantity] over the requested lines as the handler
    computes it, in doubles; when no price and no quantity is negative that
    sum is exact, over the lines requested and over the detail rows
    written.  And when the catalog has been stored and knows every line but
    the sum the handler computes is not the declared total, the request is
    answered 400 "Invalid totalAmount" and only the catalog is written. *)
Theorem C5_created_order_has_the_declared_total :
  (forall db fetched txnId requestData db' tid amount method status payUrl,
      handle env db (PostOrders fetched txnId requestData)
      = (db', Json (OrderBody tid amount method status payUrl) 200) ->
      let details := CreateTransactionApiRequest.details requestData in
      let total := CreateTransactionApiRequest.totalAmount requestData in
      (exists itemData,
          fetched = Some itemData
          /\ computeTotal itemData details = Some (Number.Finite total))
      /\ Number.isSafeInteger total = true
      /\ amount = total
      /\ exists order newDetails payment,
          orders db' = orders db ++ [order]
          /\ Order.totalAmount order = total
          /\ orderDetails db' = orderDetails db ++ newDetails
          /\ map valuesOf newDetails = map (detailValues (Order.id order))
                                           details
          /\ payments db' = payments db ++ [payment]
          /\ Payment.orderId payment = Order.id order
          /\ Payment.transactionId payment = txnId
          /\ Payment.amount payment = total
          /\ (Forall (fun d => 0 <= Detail.price d /\ 0 <= Detail.quantity d)
                     details ->
              linesTotal Detail.price Detail.quantity details = total
              /\ linesTotal OrderDetail.price OrderDetail.quantity newDetails
                 = total))
  /\ (forall db itemData txnId requestData db1 computed,
        syncCatalog itemData db = (db1, inr tt) ->
        computeTotal itemData
                     (CreateTransactionApiRequest.details requestData)
        = Some computed ->
        Number.strictEquals
          computed
          (Number.Finite (CreateTransactionApiRequest.totalAmount requestData))
        = false ->
        handle env db (PostOrders (Some itemData) txnId requestData)
        = (db1, Json (ErrorBody "Invalid totalAmount") 400)
        /\ db1 = with_products (products db1) db).
Proof.
  split.
  - intros db fetched txnId requestData db' tid amount method status payUrl H.
    pose proof (post_orders_created _ _ _ _ _ _ _ _ _ _ H) as Hc.
    cbv zeta in Hc. clear H.
    destruct Hc as (itemData & new & Hf & Hsum & _ & Hamount & _ & _ & _
                   & Ho & Hd & Hvals & Hp & Hsafe & _).
    intros details total. split; [eauto|]. split; [exact Hsafe|].
    split; [exact Hamount|].
    eexists _, new, _. split; [exact Ho|]. split; [reflexivity|].
    split; [exact Hd|]. split; [exact Hvals|]. split; [exact Hp|].
    split; [reflexivity|]. split; [reflexivity|]. split; [reflexivity|].
    intros Hpos.
    assert (Hexact : linesTotal Detail.price Detail.quantity details = total).
    { symmetry. apply (computeTotal_exact itemData); [exact Hpos | exact Hsum|].
      apply isSafeInteger_bounds in Hsafe. lia. }
    split; [exact Hexact|].
    change (linesTotal OrderDetail.price OrderDetail.quantity new)
      with (linesTotal (fun d => v_price (valuesOf d))
                       (fun d => v_quantity (valuesOf d)) new).
    rewrite <- (linesTotal_map valuesOf v_price v_quantity), Hvals.
    rewrite linesTotal_map. exact Hexact.
  - intros db itemData txnId requestData db1 computed Hsync Hsum Hne.
    split; [|exact (syncCatalog_frame _ _ _ _ Hsync)].
    unfold handle, handler, serve, post_orders, bind.
    rewrite Hsync, Hsum, Hne. reflexivity.
Qed.

(** C6, as amended.  A request with a line whose [(productId, price)] is no
    entry of the fetched catalog writes no order, no order detail and no
    payment; and when the catalog has been stored in [products], it is
    answered 400 "Unknown product". *)
Theorem C6_unknown_product_is_rejected
    db itemData txnId requestData detail :
  In detail (CreateTransactionApiRequest.details requestData) ->
  (forall item, In item itemData ->
                ~ (Item.jan_code item = Detail.productId detail
                   /\ Item.price item = Detail.price detail)) ->
  let db' := fst (handle env db (PostOrders (Some itemData) txnId requestData))
  in
  orders db' = orders db
  /\ orderDetails db' = orderDetails db
  /\ payments db' = payments db
  /\ forall db1,
       syncCatalog itemData db = (db1, inr tt) ->
       handle env db (PostOrders (Some itemData) txnId requestData)
       = (db1, Json (ErrorBody "Unknown product") 400).
Proof.
  intros Hin Hnone. apply findItem_none in Hnone.
  pose proof (computeTotal_unknown itemData _ detail Hin Hnone) as Hsum.
  unfold handle, handler, serve, post_orders, bind. rewrite Hsum.
  destruct (syncCatalog itemData db) as [db1 [r1|[]]] eqn:Hsync;
    pose proof (syncCatalog_frame _ _ _ _ Hsync) as Hframe;
    simpl; rewrite Hframe; simpl; repeat split; try reflexivity.
  - discriminate.
  - intros db2 [= <-]. rewrite <- Hframe. reflexivity.
Qed.


(** ** Two settlements at once *)

(** A request served alone runs its statements one after the other: the
    step machine and the handler agree. *)
Lemma pay_steps_alone db uid transactionId now :
  pay_steps 6 {| pay_uid := uid; pay_transactionId := transactionId;
                 pay_now := now |} db PayStart
  = (fst (handle env db (PostPrepaidPay uid transactionId now)),
     PayDone (snd (handle env db (PostPrepaidPay uid transactionId now)))).
Proof.
  unfold handle, handler, serve, post_prepaid_pay, bind, query, exec, ret.
  destruct uid as [uid|]; [|reflexivity].
  cbn [pay_steps pay_step pay_uid pay_transactionId pay_now].
  destruct (selectPrepaidPayment transactionId db) as [p|]; [|reflexivity].
  destruct (negb _); [reflexivity|].
  cbn [pay_steps pay_step pay_uid pay_transactionId pay_now].
  destruct (selectUserByUid uid db) as [u|]; [|reflexivity].
  destruct (_ <? 0); [reflexivity|].
  cbn [pay_steps pay_step pay_uid pay_transactionId pay_now].
  destruct (selectPaymentByTransactionId transactionId _) as [q|];
    reflexivity.
Qed.


Lemma interleave_app req1 req2 s1 s2 c :
  interleave req1 req2 (s1 ++ s2) c
  = interleave req1 req2 s2 (interleave req1 req2 s1 c).
Proof. apply fold_left_app. Qed.














(** ** What a settlement does not write *)

Lemma post_prepaid_pay_keeps_orders db uid transactionId now :
  orders (fst (handle env db (PostPrepaidPay uid transactionId now)))
  = orders db.
Proof.
  unfold handle, handler. destruct uid as [uid|]; [|reflexivity].
  unfold serve, post_prepaid_pay, bind, query, exec, ret.
  destruct (selectPrepaidPayment transactionId db) as [p|]; [|reflexivity].
  destruct (negb _); [reflexivity|].
  destruct (selectUserByUid uid db) as [u|]; [|reflexivity].
  destruct (_ <? 0); [reflexivity|].
  destruct (selectPaymentByTransactionId transactionId _); reflexivity.
Qed.

Lemma get_payment_first_row db transactionId :
  handle env db (GetPayment transactionId)
  = (db, match payments db with
         | [] => InternalServerError
         | payment :: _ =>
             Json (PaymentBody (Payment.transactionId payment)
                               (Payment.amount payment)
                               (Payment.method payment)
                               (Payment.status payment)) 200
         end).
Proof.
  unfold handle, handler, serve, get_payment, bind, query, selectPayment.
  destruct (payments db); reflexivity.
Qed.

Lemma run_reachable reqs : forall db,
  reachable env db -> reachable env (fst (run env db reqs)).
Proof.
  induction reqs as [|req reqs IH]; intros db Hdb; simpl; [exact Hdb|].
  pose proof (reachable_handle env db req Hdb) as Hstep.
  destruct (handle env db req) as [db1 r].
  specialize (IH db1 Hstep).
  destruct (run env db1 reqs) as [db2 rs]. exact IH.
Qed.

End Service.

(** ** The properties on the examples *)

Lemma dbTwoOrders_reachable : reachable shop dbTwoOrders.
Proof. apply run_reachable. constructor. Qed.

Lemma dbSettled_reachable : reachable shop dbSettled.
Proof. apply run_reachable. constructor. Qed.



Lemma C2_balance_witness :
  Forall (fun u => 0 <= User.balance u) (users dbSettled).
Proof.
  apply Forall_forall.
  exact (C2_balance_never_negative shop dbSettled dbSettled_reachable).
Defined.

(** C3 fails on the code.  A settlement writes [users] and [payments],
    never [orders]: after a prepaid order is created and settled, its
    payment is [completed] and the order still [pending]. *)
Theorem C3_settled_order_stays_pending :
  (forall env db uid transactionId now,
      orders (fst (handle env db (PostPrepaidPay uid transactionId now)))
      = orders db)
  /\ reachable shop dbSettled
  /\ orders dbSettled
     = [ {| Order.id := 1; Order.totalAmount := 1000;
            Order.status := OrderStatus.pending |} ]
  /\ payments dbSettled
     = [ {| Payment.id := 1; Payment.orderId := 1; Payment.userId := None;
            Payment.transactionId := "t1"; Payment.amount := 1000;
            Payment.method := PaymentMethod.prepaid;
            Payment.status := PaymentStatus.completed;
            Payment.paidAt := Some 1700000000 |} ].
Proof.
  split; [exact post_prepaid_pay_keeps_orders|].
  split; [exact dbSettled_reachable|].
  split; reflexivity.
Qed.

Lemma C4_insufficient_balance_witness :
  handle shop dbShort (PostPrepaidPay (Some "u1") "t1" 1700000000)
  = (dbShort, Json (ErrorBody "Insufficient balance") 400).
Proof.
  generalize
    (C4_insufficient_balance_rejects
       shop dbShort "u1" "t1" 1700000000
       {| Payment.id := 1; Payment.orderId := 1; Payment.userId := None;
          Payment.transactionId := "t1"; Payment.amount := 500;
          Payment.method := PaymentMethod.prepaid;
          Payment.status := PaymentStatus.pending;
          Payment.paidAt := None |}
       {| User.id := 1; User.uid := "u1"; User.balance := 300 |}
       eq_refl eq_refl eq_refl eq_refl).
  destruct (handle shop dbShort _) as [db' r].
  intros (-> & -> & _). reflexivity.
Defined.

(** C5 as stated fails, in three ways.  The handler sums in doubles: three
    teas at [2 ^ 53 - 1] less two coffees at the same price are answered 200
    with the total [2 ^ 53 - 2] they declare, one less than the sum of
    [price * quantity] over the lines.  Three such teas declared at
    27021597764222972, one less than their sum, pass the check of the
    total and are refused by the order schema, which wants a safe integer:
    500, not 400.  And two teas declared at 900 are answered 500, not 400,
    when the catalog cannot be stored, two of its products having one
    name. *)
Lemma C5_total_is_computed_in_doubles :
  (linesTotal Detail.price Detail.quantity [dearTea 3; dearCoffee (-2)]
   = 9007199254740991
   /\ snd (handle shop emptyDb
             (PostOrders (Some dearCatalog) "t1"
                         (orderOf [dearTea 3; dearCoffee (-2)]
                                  9007199254740990 PaymentMethod.prepaid)))
      = Json (OrderBody "t1" 9007199254740990 PaymentMethod.prepaid
                        PaymentStatus.pending
                        (Some "https://shop.example/pay?txnId=t1")) 200
   /\ orders (fst (handle shop emptyDb
                     (PostOrders (Some dearCatalog) "t1"
                                 (orderOf [dearTea 3; dearCoffee (-2)]
                                          9007199254740990
                                          PaymentMethod.prepaid))))
      = [ {| Order.id := 1; Order.totalAmount := 9007199254740990;
             Order.status := OrderStatus.pending |} ])
  /\ (linesTotal Detail.price Detail.quantity [dearTea 3]
      = 27021597764222973
      /\ handle shop emptyDb
           (PostOrders (Some dearCatalog) "t1"
                       (orderOf [dearTea 3] 27021597764222972
                                PaymentMethod.prepaid))
         = (with_products (map productOfItem dearCatalog) emptyDb,
            InternalServerError))
  /\ (linesTotal Detail.price Detail.quantity [tea 500 2] = 1000
      /\ handle shop emptyDb
           (PostOrders (Some twoTeas) "t1"
                       (orderOf [tea 500 2] 900 PaymentMethod.cash))
         = (emptyDb, InternalServerError)).
Proof. repeat split; vm_compute; reflexivity. Qed.

Lemma C5_declared_total_witness :
  linesTotal Detail.price Detail.quantity [tea 500 2] = 1000
  /\ handle shop emptyDb
       (PostOrders (Some catalog) "t1"
                   (orderOf [tea 500 2] 900 PaymentMethod.cash))
     = (with_products [ {| Product.id := "P1"; Product.name := "Tea";
                           Product.price := 500 |} ] emptyDb,
        Json (ErrorBody "Invalid totalAmount") 400).
Proof.
  destruct (C5_created_order_has_the_declared_total shop) as [Hok Hbad].
  split.
  - destruct (Hok emptyDb (Some catalog) "t1"
                  (orderOf [tea 500 2] 1000 PaymentMethod.cash)
                  (fst (handle shop emptyDb
                          (PostOrders (Some catalog) "t1"
                                      (orderOf [tea 500 2] 1000
                                               PaymentMethod.cash))))
                  "t1" 1000 PaymentMethod.cash PaymentStatus.completed
                  None eq_refl)
      as (_ & _ & _ & order & newDetails & payment & _ & _ & _ & _ & _ & _
          & _ & _ & Hexact).
    apply Hexact. repeat constructor; simpl; lia.
  - refine (proj1 (Hbad emptyDb catalog "t1"
                        (orderOf [tea 500 2] 900 PaymentMethod.cash)
                        _ (Number.Finite 1000) _ _ _)).
    + vm_compute. reflexivity.
    + reflexivity.
    + reflexivity.
Defined.

(** C6 as stated fails.  The catalog is stored before the lines are looked
    up: with a catalog whose products ["P1"] and ["P2"] are both named
    ["Tea"] the upsert violates the unique name and the request is answered
    500, not 400 "Unknown product", though its line (["P1"] at 400) is no
    entry of the catalog. *)
Lemma C6_unknown_product_after_a_failed_upsert :
  (forall item, In item twoTeas ->
                ~ (Item.jan_code item = Detail.productId (tea 400 1)
                   /\ Item.price item = Detail.price (tea 400 1)))
  /\ handle shop emptyDb
       (PostOrders (Some twoTeas) "t1"
                   (orderOf [tea 400 1] 400 PaymentMethod.cash))
     = (emptyDb, InternalServerError).
Proof.
  split; [|reflexivity].
  intros item [<- | [<- | []]] [H1 H2]; simpl in *;
    first [discriminate H1 | discriminate H2].
Qed.

Lemma C6_unknown_product_witness :
  handle shop emptyDb
    (PostOrders (Some catalog) "t1"
                (orderOf [tea 400 1] 400 PaymentMethod.cash))
  = (with_products [ {| Product.id := "P1"; Product.name := "Tea";
                        Product.price := 500 |} ] emptyDb,
     Json (ErrorBody "Unknown product") 400).
Proof.
  refine (proj2 (proj2 (proj2
            (C6_unknown_product_is_rejected
               shop emptyDb catalog "t1"
               (orderOf [tea 400 1] 400 PaymentMethod.cash) (tea 400 1)
               _ _))) _ _).
  - simpl. left. reflexivity.
  - intros item [<- | []] [_ Hprice]. simpl in Hprice. lia.
  - vm_compute. reflexivity.
Defined.

(** C7 fails on the code.  The first settlement of a payment the balance
    (a safe integer) covers writes the new balance and completes the
    payment, and then the [parse] of the history values throws, [userId]
    being a number where the schema of [transaction_history] wants a
    string: the request is answered 500 and no history row is written.  The
    second settlement is answered 400 "Payment is not pending" and writes
    nothing, as claimed. *)
Theorem C7_first_settlement_is_answered_500 :
  (forall env db uid uid' transactionId now now' p u,
      selectPaymentByTransactionId transactionId db = Some p ->
      Payment.method p = PaymentMethod.prepaid ->
      Payment.status p = PaymentStatus.pending ->
      selectUserByUid uid db = Some u ->
      0 <= Payment.amount p <= User.balance u ->
      Number.isSafeInteger (User.balance u) = true ->
      let db1 := updatePaymentCompleted transactionId now
                   (updateUserBalanceByUid
                      uid (User.balance u - Payment.amount p) db) in
      run env db [PostPrepaidPay (Some uid) transactionId now;
                  PostPrepaidPay (Some uid') transactionId now']
      = (db1, [InternalServerError;
               Json (ErrorBody "Payment is not pending") 400])
      /\ selectUserByUid uid db1
         = Some (setBalance (User.balance u - Payment.amount p) u)
      /\ selectPaymentByTransactionId transactionId db1
         = Some (completePaymentRow transactionId now p)
      /\ transactionHistory db1 = transactionHistory db)
  /\ reachable shop dbTwoOrders
  /\ users dbTwoOrders
     = [ {| User.id := 1; User.uid := "u1"; User.balance := 500 |} ]
  /\ selectPrepaidPayment "t1" dbTwoOrders
     = Some {| Payment.id := 1; Payment.orderId := 1; Payment.userId := None;
               Payment.transactionId := "t1"; Payment.amount := 500;
               Payment.method := PaymentMethod.prepaid;
               Payment.status := PaymentStatus.pending;
               Payment.paidAt := None |}
  /\ snd (run shop dbTwoOrders
              [PostPrepaidPay (Some "u1") "t1" 1700000000;
               PostPrepaidPay (Some "u1") "t1" 1700000001])
     = [InternalServerError; Json (ErrorBody "Payment is not pending") 400]
  /\ users (fst (handle shop dbTwoOrders
                        (PostPrepaidPay (Some "u1") "t1" 1700000000)))
     = [ {| User.id := 1; User.uid := "u1"; User.balance := 0 |} ]
  /\ selectPrepaidPayment
       "t1" (fst (handle shop dbTwoOrders
                         (PostPrepaidPay (Some "u1") "t1" 1700000000)))
     = Some {| Payment.id := 1; Payment.orderId := 1; Payment.userId := None;
               Payment.transactionId := "t1"; Payment.amount := 500;
               Payment.method := PaymentMethod.prepaid;
               Payment.status := PaymentStatus.completed;
               Payment.paidAt := Some 1700000000 |}
  /\ transactionHistory
       (fst (handle shop dbTwoOrders
                    (PostPrepaidPay (Some "u1") "t1" 1700000000)))
     = [].
Proof.
  split.
  { intros env db uid uid' transactionId now now' p u Hp Hm Hs Hu [_ Hle] _.
    apply post_prepaid_pay_twice; assumption. }
  split; [exact dbTwoOrders_reachable|].
  repeat split; reflexivity.
Qed.


(** C9 fails on the code.  The query of the payment detail has no [where]:
    it answers with the first row of [payments] whatever [transactionId] is
    asked for, and throws (500, not 404) when the table is empty. *)
Theorem C9_payment_detail_ignores_the_transactionId :
  (forall env db transactionId,
      handle env db (GetPayment transactionId)
      = (db, match payments db with
             | [] => InternalServerError
             | payment :: _ =>
                 Json (PaymentBody (Payment.transactionId payment)
                                   (Payment.amount payment)
                                   (Payment.method payment)
                                   (Payment.status payment)) 200
             end))
  /\ selectPaymentByTransactionId "t2" dbTwoOrders
     = Some {| Payment.id := 2; Payment.orderId := 2; Payment.userId := None;
               Payment.transactionId := "t2"; Payment.amount := 500;
               Payment.method := PaymentMethod.prepaid;
               Payment.status := PaymentStatus.pending;
               Payment.paidAt := None |}
  /\ snd (handle shop dbTwoOrders (GetPayment "t2"))
     = Json (PaymentBody "t1" 500 PaymentMethod.prepaid
                         PaymentStatus.pending) 200
  /\ selectPaymentByTransactionId "t9" dbTwoOrders = None
  /\ snd (handle shop dbTwoOrders (GetPayment "t9"))
     = Json (PaymentBody "t1" 500 PaymentMethod.prepaid
                         PaymentStatus.pending) 200
  /\ snd (handle shop emptyDb (GetPayment "t1")) = InternalServerError.
Proof.
  split; [exact get_payment_first_row|].
  repeat split; reflexivity.
Qed.

(** C10 fails on the code, by the defect of C7.  The settlement does not
    look at whose payment it settles: any user whose balance covers a
    pending prepaid payment is debited its amount and the payment is
    completed; the response and the writes are the same whatever the
    [user_id] of the payments; the settlement leaves every [user_id] as it
    was; and in every state the service reaches no payment has one.  But
    the settlement does not succeed: once the balance and the payment are
    written the [parse] of the history values throws, and the request is
    answered 500. *)
Theorem C10_settlement_by_any_user_is_answered_500 :
  (forall env db uid transactionId now p u,
      selectPaymentByTransactionId transactionId db = Some p ->
      Payment.method p = PaymentMethod.prepaid ->
      Payment.status p = PaymentStatus.pending ->
      selectUserByUid uid db = Some u ->
      0 <= Payment.amount p <= User.balance u ->
      Number.isSafeInteger (User.balance u) = true ->
      let db' := updatePaymentCompleted transactionId now
                   (updateUserBalanceByUid
                      uid (User.balance u - Payment.amount p) db) in
      handle env db (PostPrepaidPay (Some uid) transactionId now)
      = (db', InternalServerError)
      /\ selectUserByUid uid db'
         = Some (setBalance (User.balance u - Payment.amount p) u)
      /\ selectPaymentByTransactionId transactionId db'
         = Some (completePaymentRow transactionId now p))
  /\ (forall env owner db uid transactionId now,
        handle env (setOwners owner db) (PostPrepaidPay uid transactionId now)
        = (setOwners owner
             (fst (handle env db (PostPrepaidPay uid transactionId now))),
           snd (handle env db (PostPrepaidPay uid transactionId now))))
  /\ (forall env db uid transactionId now,
        map Payment.userId
            (payments
               (fst (handle env db (PostPrepaidPay uid transactionId now))))
        = map Payment.userId (payments db))
  /\ (forall env db, reachable env db ->
                     forall p, In p (payments db) -> Payment.userId p = None)
  /\ reachable shop dbTwoOrders
  /\ users dbTwoOrders
     = [ {| User.id := 1; User.uid := "u1"; User.balance := 500 |} ]
  /\ selectPrepaidPayment "t2" dbTwoOrders
     = Some {| Payment.id := 2; Payment.orderId := 2; Payment.userId := None;
               Payment.transactionId := "t2"; Payment.amount := 500;
               Payment.method := PaymentMethod.prepaid;
               Payment.status := PaymentStatus.pending;
               Payment.paidAt := None |}
  /\ snd (handle shop dbTwoOrders
                 (PostPrepaidPay (Some "u1") "t2" 1700000000))
     = InternalServerError
  /\ users (fst (handle shop dbTwoOrders
                        (PostPrepaidPay (Some "u1") "t2" 1700000000)))
     = [ {| User.id := 1; User.uid := "u1"; User.balance := 0 |} ]
  /\ selectPrepaidPayment
       "t2" (fst (handle shop dbTwoOrders
                         (PostPrepaidPay (Some "u1") "t2" 1700000000)))
     = Some {| Payment.id := 2; Payment.orderId := 2; Payment.userId := None;
               Payment.transactionId := "t2"; Payment.amount := 500;
               Payment.method := PaymentMethod.prepaid;
               Payment.status := PaymentStatus.completed;
               Payment.paidAt := Some 1700000000 |}.
Proof.
  split.
  { intros env db uid transactionId now p u Hp Hm Hs Hu [_ Hle] _ db'.
    split; [apply post_prepaid_pay_debits; assumption|].
    split.
    - apply (selectUserByUid_updateUserBalanceByUid uid _ db u Hu).
    - apply selectPayment_updatePaymentCompleted. exact Hp. }
  split; [exact post_prepaid_pay_setOwners|].
  split; [exact post_prepaid_pay_keeps_owners|].
  split; [exact reachable_unowned|].
  split; [exact dbTwoOrders_reachable|].
  repeat split; reflexivity.
Qed.

(** * More of the code *)

(** ** The key check *)

Lemma fold_lor_zero (f : nat -> Z) (l : list nat) : forall m,
  fold_left (fun mismatch i => Z.lor mismatch (f i)) l m = 0
  <-> m = 0 /\ forall i, In i l -> f i = 0.
Proof.
  induction l as [|j l IH]; intros m; simpl.
  - split; [intros ->; split; [reflexivity | intros i []] | intros [-> _]].
    reflexivity.
  - rewrite IH, Z.lor_eq_0_iff. split.
    + intros [[-> Hj] Hl]. split; [reflexivity|].
      intros i [<- | Hi]; auto.
    + intros [-> H]. repeat split; auto.
Qed.

Lemma charCodeAt_head c s : charCodeAt (String c s) 0 = Z.of_N (Ascii.N_of_ascii c).
Proof. reflexivity. Qed.

Lemma charCodeAt_tail c s i : charCodeAt (String c s) (S i) = charCodeAt s i.
Proof. reflexivity. Qed.

Lemma same_code_units : forall a b,
  String.length a = String.length b ->
  (forall i, (i < String.length a)%nat -> charCodeAt a i = charCodeAt b i) ->
  a = b.
Proof.
  induction a as [|c a IH]; intros [|d b]; simpl; try discriminate.
  - reflexivity.
  - intros [= Hlen] H. f_equal.
    + specialize (H 0%nat ltac:(lia)).
      rewrite !charCodeAt_head in H. apply N2Z.inj in H.
      rewrite <- (Ascii.ascii_N_embedding c), <- (Ascii.ascii_N_embedding d).
      now rewrite H.
    + apply IH; [exact Hlen|]. intros i Hi.
      specialize (H (S i) ltac:(lia)). now rewrite !charCodeAt_tail in H.
Qed.

Lemma safeCompare_true_iff a b : safeCompare a b = true <-> a = b.
Proof.
  unfold safeCompare. split.
  - destruct (String.length a =? String.length b)%nat eqn:Hlen;
      [|discriminate]. simpl.
    apply Nat.eqb_eq in Hlen. intros H. apply Z.eqb_eq in H.
    apply fold_lor_zero in H. destruct H as [_ H].
    apply same_code_units; [exact Hlen|].
    intros i Hi. apply Z.lxor_eq_0_iff. apply H. apply in_seq. lia.
  - intros <-. rewrite Nat.eqb_refl. simpl.
    apply Z.eqb_eq. apply fold_lor_zero. split; [reflexivity|].
    intros i _. apply Z.lxor_nilpotent.
Qed.

(** X1.  [safeCompare] answers [true] exactly when the two strings are
    equal: strings of different lengths are told apart at once, strings of
    one length by the code units that differ. *)
Theorem X1_safeCompare_is_equality a b :
  safeCompare a b = true <-> a = b.
Proof. apply safeCompare_true_iff. Qed.

Lemma checkKey_next header serverKey :
  checkKey header serverKey = Next <-> orEmpty header = orEmpty serverKey.
Proof.
  unfold checkKey.
  destruct (safeCompare (orEmpty header) (orEmpty serverKey)) eqn:E; simpl.
  - split; [intros _|reflexivity]. apply safeCompare_true_iff. exact E.
  - split; [discriminate|]. intros H.
    apply safeCompare_true_iff in H. congruence.
Qed.

Lemma checkKey_refuses header serverKey :
  orEmpty header <> orEmpty serverKey ->
  checkKey header serverKey = Text "Unauthorized" 401.
Proof.
  intros Hne. unfold checkKey.
  destruct (safeCompare (orEmpty header) (orEmpty serverKey)) eqn:E; simpl;
    [|reflexivity].
  apply safeCompare_true_iff in E. contradiction.
Qed.

(** X2.  A route behind an API key serves a request exactly when its
    [X-API-KEY] header is the key of the bindings, an absent header and an
    unset binding both counting as the empty string: with any other header
    the answer is the text "Unauthorized" with status 401 and nothing is
    written; with the key, the answer and the writes are the handler's.  So
    a deployment whose key is unset serves the requests that carry no
    header. *)
Theorem X2_api_key_routes keys env db fetched txnId requestData
    transactionId body :
  (forall header,
      orEmpty header <> orEmpty (API_KEY keys) ->
      post_orders_route keys env header fetched txnId requestData db
      = (db, Refused "Unauthorized" 401)
      /\ get_payment_route keys header transactionId db
         = (db, Refused "Unauthorized" 401))
  /\ (forall header,
        orEmpty header <> orEmpty (ADMIN_API_KEY keys) ->
        put_admin_prepaid_charge_route keys header transactionId body db
        = (db, Refused "Unauthorized" 401))
  /\ (forall header,
        orEmpty header = orEmpty (API_KEY keys) ->
        post_orders_route keys env header fetched txnId requestData db
        = (fst (handle env db (PostOrders fetched txnId requestData)),
           Served (snd (handle env db
                                (PostOrders fetched txnId requestData))))
        /\ get_payment_route keys header transactionId db
           = (fst (handle env db (GetPayment transactionId)),
              Served (snd (handle env db (GetPayment transactionId)))))
  /\ (forall header,
        orEmpty header = orEmpty (ADMIN_API_KEY keys) ->
        put_admin_prepaid_charge_route keys header transactionId body db
        = (fst (handle env db (PutAdminPrepaidCharge transactionId body)),
           Served (snd (handle env db
                                (PutAdminPrepaidCharge transactionId body))))).
Proof.
  unfold post_orders_route, get_payment_route, put_admin_prepaid_charge_route,
    checkApiKey, checkAdminApiKey.
  repeat split.
  - rewrite (checkKey_refuses _ _ H). reflexivity.
  - rewrite (checkKey_refuses _ _ H). reflexivity.
  - intros header H. rewrite (checkKey_refuses _ _ H). reflexivity.
  - apply checkKey_next in H. rewrite H. unfold guarded, handle, handler.
    destruct (serve _ db); reflexivity.
  - apply checkKey_next in H. rewrite H. unfold guarded, handle, handler.
    destruct (serve _ db); reflexivity.
  - intros header H. apply checkKey_next in H. rewrite H.
    unfold guarded, handle, handler. destruct (serve _ db); reflexivity.
Qed.

(** ** The statements of a loop *)

Lemma chunk_sizes {A : Type} (l : list A) (size : nat) :
  (0 < size)%nat ->
  Forall (fun c => (0 < List.length c <= size)%nat) (chunk l size).
Proof.
  intros Hsize. apply Forall_forall. intros c Hc. unfold chunk in Hc.
  apply in_map_iff in Hc. destruct Hc as (i & <- & Hi).
  apply in_seq in Hi. rewrite length_firstn, length_skipn.
  pose proof (Nat.div_mod_eq (List.length l + size - 1) size) as Hdiv.
  pose proof (Nat.mod_upper_bound (List.length l + size - 1) size) as Hmod.
  nia.
Qed.

(** X3.  The rows of an order request are written in statements of one to
    ten rows each: the batches [chunk] cuts, put end to end, are the rows in
    the order of the request, none is empty and none has more than ten
    rows; an empty list of rows gives no statement at all. *)
Theorem X3_rows_go_in_batches_of_ten {A : Type} (rows : list A) :
  List.concat (chunk rows 10) = rows
  /\ Forall (fun batch => (1 <= List.length batch <= 10)%nat) (chunk rows 10)
  /\ (rows = [] -> chunk rows 10 = [])
  /\ List.length (chunk rows 10) = ((List.length rows + 9) / 10)%nat.
Proof.
  split; [apply concat_chunk; lia|].
  split; [apply chunk_sizes; lia|].
  split; [intros ->; reflexivity|].
  unfold chunk. rewrite length_map, length_seq. f_equal. lia.
Qed.

(** ** Charges and settlements, one request after another *)

Lemma find_none_existsb {A : Type} (f : A -> bool) (l : list A) :
  find f l = None -> existsb f l = false.
Proof.
  induction l as [|x l IH]; simpl; [reflexivity|].
  destruct (f x); [discriminate | exact IH].
Qed.


Lemma find_app_old {A : Type} (f : A -> bool) (l l' : list A) (x : A) :
  find f l = Some x -> find f (l ++ l') = Some x.
Proof.
  induction l as [|y l IH]; simpl; [discriminate|].
  destruct (f y); auto.
Qed.

Lemma selectUserByUid_updateUserBalanceById uid balance db u :
  selectUserByUid uid db = Some u ->
  selectUserByUid uid (updateUserBalanceById (User.id u) balance db)
  = Some (setBalance balance u).
Proof.
  unfold selectUserByUid, updateUserBalanceById. simpl. intros H.
  rewrite find_map_stable.
  - rewrite H. simpl. now rewrite Z.eqb_refl.
  - intros x. destruct (User.id x =? User.id u); reflexivity.
Qed.

Section Ledger.

Variable env : Bindings.

(** What a settlement can end in: the payment was pending and covered, the
    balance and the payment are written and the request is answered 500; or
    the request is refused and nothing is written. *)
Lemma post_prepaid_pay_outcome db uid transactionId now :
  let (db', r) := handle env db (PostPrepaidPay uid transactionId now) in
  (exists uid0 p u,
      uid = Some uid0
      /\ selectPrepaidPayment transactionId db = Some p
      /\ Payment.status p = PaymentStatus.pending
      /\ selectUserByUid uid0 db = Some u
      /\ Payment.amount p <= User.balance u
      /\ db' = updatePaymentCompleted transactionId now
                 (updateUserBalanceByUid
                    uid0 (User.balance u - Payment.amount p) db)
      /\ r = InternalServerError)
  \/ (db' = db
      /\ exists message code,
           r = Json (ErrorBody message) code
           /\ (code = 400 \/ code = 401 \/ code = 404)).
Proof.
  unfold handle, handler, serve, post_prepaid_pay, bind, query, exec, ret.
  destruct uid as [uid|]; [|right; split; [reflexivity|]; eauto 6].
  destruct (selectPrepaidPayment transactionId db) as [p|] eqn:Hp;
    [|right; split; [reflexivity|]; eauto 6].
  destruct (PaymentStatus.eqb (Payment.status p) PaymentStatus.pending)
    eqn:Hs; cbn [negb]; [|right; split; [reflexivity|]; eauto 6].
  destruct (selectUserByUid uid db) as [u|] eqn:Hu;
    [|right; split; [reflexivity|]; eauto 6].
  destruct (User.balance u - Payment.amount p <? 0) eqn:E;
    [right; split; [reflexivity|]; eauto 6|].
  apply Z.ltb_ge in E.
  destruct (find_weaken _ _ _ _ Hp) as [q Hq].
  assert (Hre : selectPaymentByTransactionId transactionId
                  (updatePaymentCompleted transactionId now
                     (updateUserBalanceByUid uid
                        (User.balance u - Payment.amount p) db))
                = Some (completePaymentRow transactionId now q)).
  { apply selectPayment_updatePaymentCompleted. exact Hq. }
  rewrite Hre. left. exists uid, p, u.
  split; [reflexivity|]. split; [reflexivity|].
  split; [destruct (Payment.status p); simpl in Hs; congruence|].
  split; [first [exact Hu | reflexivity]|]. split; [lia|].
  split; reflexivity.
Qed.


(** A charge on a known user, statement by statement: the balance is
    written, then the [parse] of the history values throws. *)
Lemma put_admin_prepaid_charge_credits db transactionId uid amount u :
  uid <> "" -> 0 < amount ->
  selectUserByUid uid db = Some u ->
  handle env db (PutAdminPrepaidCharge transactionId (chargeOf uid amount))
  = (updateUserBalanceById (User.id u) (User.balance u + amount) db,
     InternalServerError).
Proof.
  intros Huid Hpos Hu.
  unfold handle, handler, serve, put_admin_prepaid_charge, bind, query, exec,
    ret, adminPrepaidChargeApiRequestSchema, chargeOf. simpl.
  apply String.eqb_neq in Huid. rewrite Huid.
  apply Z.ltb_lt in Hpos. rewrite Hpos. simpl. rewrite Hu. reflexivity.
Qed.

(** X5.  A charge of a positive amount on a known user, balance and new
    balance being safe integers, writes the new balance, the old one plus
    the amount, and is then answered 500: the user is found with the new
    balance, and the history, the orders and the payments are as they
    were. *)
Theorem X5_charge_credits_and_is_answered_500 db transactionId uid amount u :
  uid <> "" -> 0 < amount ->
  selectUserByUid uid db = Some u ->
  Number.isSafeInteger (User.balance u) = true ->
  Number.isSafeInteger (User.balance u + amount) = true ->
  let (db', r) :=
    handle env db (PutAdminPrepaidCharge transactionId (chargeOf uid amount))
  in
  r = InternalServerError
  /\ db' = updateUserBalanceById (User.id u) (User.balance u + amount) db
  /\ selectUserByUid uid db' = Some (setBalance (User.balance u + amount) u)
  /\ transactionHistory db' = transactionHistory db
  /\ orders db' = orders db
  /\ payments db' = payments db.
Proof.
  intros Huid Hpos Hu _ _.
  rewrite (put_admin_prepaid_charge_credits db transactionId uid amount u)
    by assumption.
  repeat split.
  apply (selectUserByUid_updateUserBalanceById uid _ db u Hu).
Qed.

(** X6.  A charge is not idempotent: the same charge sent twice, even with
    the same transaction identifier, credits the amount twice (the
    balances being safe integers); both requests are answered 500 and the
    history is as it was. *)
Theorem X6_charge_twice_credits_twice db transactionId uid amount u :
  uid <> "" -> 0 < amount ->
  selectUserByUid uid db = Some u ->
  Number.isSafeInteger (User.balance u) = true ->
  Number.isSafeInteger (User.balance u + amount + amount) = true ->
  let (db', rs) :=
    run env db [PutAdminPrepaidCharge transactionId (chargeOf uid amount);
                PutAdminPrepaidCharge transactionId (chargeOf uid amount)]
  in
  rs = [InternalServerError; InternalServerError]
  /\ selectUserByUid uid db'
     = Some (setBalance (User.balance u + amount + amount) u)
  /\ transactionHistory db' = transactionHistory db.
Proof.
  intros Huid Hpos Hu _ _. simpl run.
  rewrite (put_admin_prepaid_charge_credits db transactionId uid amount u)
    by assumption.
  set (db1 := updateUserBalanceById _ _ _).
  assert (Hu1 : selectUserByUid uid db1
                = Some (setBalance (User.balance u + amount) u)).
  { apply (selectUserByUid_updateUserBalanceById uid _ db u Hu). }
  rewrite (put_admin_prepaid_charge_credits db1 transactionId uid amount _
             Huid Hpos Hu1).
  split; [reflexivity|]. split; [|reflexivity].
  exact (selectUserByUid_updateUserBalanceById
           uid (User.balance u + amount + amount) db1 _ Hu1).
Qed.

(** X7.  Crediting [N] and then settling a payment of [N] gives the user
    the balance of before the credit (a safe integer, as is the balance in
    between) and completes the payment; both requests are answered 500 and
    the history is as it was. *)
Theorem X7_credit_then_debit_restores_the_balance
    db chargeId uid N u transactionId now p :
  uid <> "" -> 0 < N ->
  selectUserByUid uid db = Some u ->
  0 <= User.balance u ->
  Number.isSafeInteger (User.balance u + N) = true ->
  selectPaymentByTransactionId transactionId db = Some p ->
  Payment.method p = PaymentMethod.prepaid ->
  Payment.status p = PaymentStatus.pending ->
  Payment.amount p = N ->
  let (db', rs) :=
    run env db [PutAdminPrepaidCharge chargeId (chargeOf uid N);
                PostPrepaidPay (Some uid) transactionId now]
  in
  rs = [InternalServerError; InternalServerError]
  /\ selectUserByUid uid db' = Some u
  /\ selectPaymentByTransactionId transactionId db'
     = Some (completePaymentRow transactionId now p)
  /\ transactionHistory db' = transactionHistory db.
Proof.
  intros Huid Hpos Hu Hbal _ Hp Hm Hs Ha. simpl run.
  rewrite (put_admin_prepaid_charge_credits db chargeId uid N u)
    by assumption.
  set (db1 := updateUserBalanceById _ _ _).
  assert (Hu1 : selectUserByUid uid db1
                = Some (setBalance (User.balance u + N) u)).
  { apply (selectUserByUid_updateUserBalanceById uid _ db u Hu). }
  assert (Hp1 : selectPaymentByTransactionId transactionId db1 = Some p)
    by exact Hp.
  rewrite (post_prepaid_pay_debits env db1 uid transactionId now p _
             Hp1 Hm Hs Hu1) by (simpl; lia).
  split; [reflexivity|]. split; [|split; [|reflexivity]].
  - change (selectUserByUid uid
              (updateUserBalanceByUid uid
                 (User.balance (setBalance (User.balance u + N) u)
                  - Payment.amount p) db1)
            = Some u).
    rewrite (selectUserByUid_updateUserBalanceByUid uid _ db1 _ Hu1).
    simpl. rewrite Ha.
    replace (User.balance u + N - N) with (User.balance u) by lia.
    destruct u; reflexivity.
  - apply selectPayment_updatePaymentCompleted. exact Hp1.
Qed.


(** No request writes a history row: the only two inserts come after a
    [parse] that throws. *)
Lemma handle_keeps_history db req :
  transactionHistory (fst (handle env db req)) = transactionHistory db.
Proof.
  destruct req as [fetched txnId requestData | transactionId body
                  | transactionId | uid | uid transactionId
                  | uid transactionId now]; unfold handle, handler.
  - destruct (serve _ db) as [db' r] eqn:H.
    apply post_orders_frame in H. destruct H as (_ & Hh & _). exact Hh.
  - unfold serve, put_admin_prepaid_charge, bind, query, exec, ret.
    destruct (adminPrepaidChargeApiRequestSchema body); [|reflexivity]. simpl.
    destruct (selectUserByUid _ db); reflexivity.
  - unfold serve, get_payment, bind, query.
    destruct (selectPayment db); reflexivity.
  - destruct uid as [uid|]; [|reflexivity].
    unfold serve, get_profile, bind, query, returning_checked, insertUser, ret.
    destruct (selectUserByUid uid db); [reflexivity|].
    destruct (existsb _ (users db)); reflexivity.
  - destruct uid as [uid|]; [|reflexivity].
    unfold serve, get_prepaid_pay, bind, query.
    destruct (selectPrepaidPayment transactionId db); reflexivity.
  - pose proof (post_prepaid_pay_outcome db uid transactionId now) as H.
    unfold handle, handler in H.
    destruct (serve _ db) as [db' r].
    destruct H as [(uid0 & p & u & _ & _ & _ & _ & _ & -> & _) | (-> & _)];
      reflexivity.
Qed.

(** X9.  No request edits or removes a history row, and none writes more
    than one: the history after a request is the history before it, followed
    by at most one row. *)
Theorem X9_history_is_append_only db req :
  exists rows,
    transactionHistory (fst (handle env db req))
    = transactionHistory db ++ rows
    /\ (List.length rows <= 1)%nat.
Proof.
  exists []. rewrite app_nil_r.
  split; [apply handle_keeps_history | simpl; lia].
Qed.

End Ledger.

(** ** What the requests keep true *)

Lemma NoDup_map_inj {A B : Type} (f : A -> B) (l : list A) (x y : A) :
  NoDup (map f l) -> In x l -> In y l -> f x = f y -> x = y.
Proof.
  induction l as [|z l IH]; simpl; [intros _ []|].
  intros Hnd Hx Hy Hf. inversion Hnd as [|? ? Hnotin Hnd']; subst.
  destruct Hx as [<- | Hx], Hy as [<- | Hy]; auto.
  - exfalso. apply Hnotin. rewrite Hf. apply in_map. exact Hy.
  - exfalso. apply Hnotin. rewrite <- Hf. apply in_map. exact Hx.
Qed.

Lemma NoDup_snoc {A : Type} (l : list A) (a : A) :
  NoDup l -> ~ In a l -> NoDup (l ++ [a]).
Proof.
  induction l as [|x l IH]; simpl; intros Hnd Hnotin.
  - constructor; [intros [] | constructor].
  - inversion Hnd as [|? ? Hx Hnd']; subst. constructor.
    + intros Hin. apply in_app_or in Hin. destruct Hin as [Hin | [-> | []]].
      * contradiction.
      * apply Hnotin. left. reflexivity.
    + apply IH; [exact Hnd' | intros Hin; apply Hnotin; right; exact Hin].
Qed.



Section Invariants.

Variable env : Bindings.



Lemma reachable_no_history db :
  reachable env db -> transactionHistory db = [].
Proof.
  induction 1 as [|db req _ IH]; [reflexivity|].
  rewrite handle_keeps_history. exact IH.
Qed.


(** What an order request writes to [orders] and [payments]: nothing; or,
    when a later statement throws, the pending order alone; or the order
    and its payment. *)
Lemma post_orders_writes db fetched txnId requestData db' r :
  serve (post_orders env fetched txnId requestData) db = (db', r) ->
  let oid := next_rowid (seq_orders db) (map Order.id (orders db)) in
  let total := CreateTransactionApiRequest.totalAmount requestData in
  (orders db' = orders db /\ payments db' = payments db
   /\ orderDetails db' = orderDetails db)
  \/ (r = InternalServerError
      /\ orders db'
         = orders db ++ [ {| Order.id := oid; Order.totalAmount := total;
                             Order.status := OrderStatus.pending |} ]
      /\ payments db' = payments db)
  \/ (exists status,
        orders db'
        = orders db
          ++ [ {| Order.id := oid; Order.totalAmount := total;
                  Order.status :=
                    if PaymentStatus.eqb status PaymentStatus.completed
                    then OrderStatus.completed else OrderStatus.pending |} ]
        /\ payments db'
           = payments db
             ++ [ {| Payment.id :=
                       next_rowid (seq_payments db)
                                  (map Payment.id (payments db));
                     Payment.orderId := oid;
                     Payment.userId := None;
                     Payment.transactionId := txnId;
                     Payment.amount := total;
                     Payment.method :=
                       CreateTransactionApiRequest.paymentMethod requestData;
                     Payment.status := status;
                     Payment.paidAt := None |} ]
        /\ ~ In txnId (map Payment.transactionId (payments db))).
Proof.
  intros H. apply post_orders_outcome in H. cbv zeta in *.
  destruct H as (_ & _ & [(Hdb & _) | [H | H]]).
  - left. rewrite Hdb. simpl. auto.
  - right. left. exact H.
  - destruct H as (itemData & db1 & new & _ & _ & _ & _ & _ & Hnew & _ & Ho
                   & _ & _ & Hp).
    right. right. eexists. split; [exact Ho|]. split; [exact Hp | exact Hnew].
Qed.

Lemma books_ok_frame db db' :
  orders db' = orders db -> payments db' = payments db ->
  books_ok (orders db) (payments db) -> books_ok (orders db') (payments db').
Proof. intros -> ->. auto. Qed.

Lemma books_ok_order os ps last total :
  books_ok os ps ->
  books_ok (os ++ [ {| Order.id := next_rowid last (map Order.id os);
                       Order.totalAmount := total;
                       Order.status := OrderStatus.pending |} ]) ps.
Proof.
  intros (Hoid & Htx & Hpo & Hfk & Hdone). unfold books_ok.
  rewrite map_app. simpl. repeat split; auto.
  - apply NoDup_snoc; [exact Hoid|].
    intros Hin. apply (next_rowid_fresh last _ _ Hin). reflexivity.
  - intros p Hp. destruct (Hfk p Hp) as (o & Ho & Hrest).
    exists o. split; [apply in_or_app; auto | exact Hrest].
  - intros o Ho Hst. apply in_app_or in Ho.
    destruct Ho as [Ho | [<- | []]]; [auto | discriminate].
Qed.

Lemma books_ok_order_and_payment os ps last pid total txnId method status :
  books_ok os ps ->
  ~ In txnId (map Payment.transactionId ps) ->
  books_ok
    (os ++ [ {| Order.id := next_rowid last (map Order.id os);
                Order.totalAmount := total;
                Order.status :=
                  if PaymentStatus.eqb status PaymentStatus.completed
                  then OrderStatus.completed else OrderStatus.pending |} ])
    (ps ++ [ {| Payment.id := pid;
                Payment.orderId := next_rowid last (map Order.id os);
                Payment.userId := None;
                Payment.transactionId := txnId;
                Payment.amount := total;
                Payment.method := method;
                Payment.status := status;
                Payment.paidAt := None |} ]).
Proof.
  intros (Hoid & Htx & Hpo & Hfk & Hdone) Hnew. unfold books_ok.
  rewrite !map_app. simpl.
  assert (Hfresh : ~ In (next_rowid last (map Order.id os)) (map Order.id os)).
  { intros Hin. apply (next_rowid_fresh last _ _ Hin). reflexivity. }
  repeat split.
  - apply NoDup_snoc; assumption.
  - apply NoDup_snoc; assumption.
  - apply NoDup_snoc; [exact Hpo|]. intros Hin. apply in_map_iff in Hin.
    destruct Hin as (p & Hp & Hin). destruct (Hfk p Hin) as (o & Ho & Hid & _).
    apply Hfresh. rewrite <- Hp, <- Hid. apply in_map. exact Ho.
  - intros p Hp. apply in_app_or in Hp. destruct Hp as [Hp | [<- | []]].
    + destruct (Hfk p Hp) as (o & Ho & Hrest).
      exists o. split; [apply in_or_app; auto | exact Hrest].
    + eexists. split; [apply in_or_app; right; left; reflexivity|].
      simpl. auto.
  - intros o Ho Hst. apply in_app_or in Ho. destruct Ho as [Ho | [<- | []]].
    + destruct (Hdone o Ho Hst) as (p & Hp & Hrest).
      exists p. split; [apply in_or_app; auto | exact Hrest].
    + eexists. split; [apply in_or_app; right; left; reflexivity|].
      simpl in *. split; [reflexivity|].
      destruct status; simpl in Hst; congruence.
Qed.

Lemma books_ok_completed os ps transactionId now :
  books_ok os ps -> books_ok os (map (completePaymentRow transactionId now) ps).
Proof.
  intros (Hoid & Htx & Hpo & Hfk & Hdone).
  assert (Hkeep : forall p,
             Payment.transactionId (completePaymentRow transactionId now p)
             = Payment.transactionId p
             /\ Payment.orderId (completePaymentRow transactionId now p)
                = Payment.orderId p
             /\ Payment.amount (completePaymentRow transactionId now p)
                = Payment.amount p
             /\ (Payment.status p = PaymentStatus.completed ->
                 Payment.status (completePaymentRow transactionId now p)
                 = PaymentStatus.completed)).
  { intros p. unfold completePaymentRow.
    destruct (Payment.transactionId p =? transactionId)%string; simpl; auto. }
  unfold books_ok. rewrite !map_map.
  rewrite (map_ext _ Payment.transactionId (fun p => proj1 (Hkeep p))).
  rewrite (map_ext _ Payment.orderId
             (fun p => proj1 (proj2 (Hkeep p)))).
  repeat split; auto.
  - intros q Hq. apply in_map_iff in Hq. destruct Hq as (p & <- & Hp).
    destruct (Hfk p Hp) as (o & Ho & Hid & Hamt). exists o.
    destruct (Hkeep p) as (_ & -> & -> & _). auto.
  - intros o Ho Hst. destruct (Hdone o Ho Hst) as (p & Hp & Hid & Hs).
    exists (completePaymentRow transactionId now p).
    split; [apply in_map; exact Hp|].
    destruct (Hkeep p) as (_ & -> & _ & Hc). auto.
Qed.

Lemma handle_books_ok db req :
  books_ok (orders db) (payments db) ->
  books_ok (orders (fst (handle env db req)))
           (payments (fst (handle env db req))).
Proof.
  intros Hok. destruct req as [fetched txnId requestData | transactionId body
                              | transactionId | uid | uid transactionId
                              | uid transactionId now]; unfold handle, handler.
  - destruct (serve _ db) as [db' r] eqn:H.
    apply post_orders_writes in H. cbv zeta in H. simpl.
    destruct H as [(Ho & Hp & _) | [(_ & Ho & Hp) | (st & Ho & Hp & Hnew)]];
      rewrite Ho, Hp.
    + exact Hok.
    + apply books_ok_order. exact Hok.
    + apply books_ok_order_and_payment; assumption.
  - unfold serve, put_admin_prepaid_charge, bind, query, exec, ret.
    destruct (adminPrepaidChargeApiRequestSchema body); [|exact Hok]. simpl.
    destruct (selectUserByUid _ db); exact Hok.
  - unfold serve, get_payment, bind, query.
    destruct (selectPayment db); exact Hok.
  - destruct uid as [uid|]; [|exact Hok].
    unfold serve, get_profile, bind, query, returning_checked, insertUser, ret.
    destruct (selectUserByUid uid db); [exact Hok|].
    destruct (existsb _ (users db)); exact Hok.
  - destruct uid as [uid|]; [|exact Hok].
    unfold serve, get_prepaid_pay, bind, query.
    destruct (selectPrepaidPayment transactionId db); exact Hok.
  - pose proof (post_prepaid_pay_outcome env db uid transactionId now) as H.
    unfold handle, handler in H. destruct (serve _ db) as [db' r].
    destruct H as [(uid0 & p & u & _ & _ & _ & _ & _ & -> & _) | (-> & _)];
      [|exact Hok].
    simpl. apply books_ok_completed. exact Hok.
Qed.

Lemma reachable_books_ok db :
  reachable env db -> books_ok (orders db) (payments db).
Proof.
  induction 1 as [|db req _ IH].
  - repeat split; simpl; try constructor; intros ? [].
  - apply handle_books_ok. exact IH.
Qed.

(** X12.  In every state the service reaches, a payment is the payment of
    one order of the table, of the same amount as the order's total; no
    order has two payments; and no two payments share a
    [transactionId]. *)
Theorem X12_one_payment_per_order db :
  reachable env db ->
  (forall p, In p (payments db) ->
             exists o, In o (orders db)
                       /\ Order.id o = Payment.orderId p
                       /\ Order.totalAmount o = Payment.amount p)
  /\ (forall p q, In p (payments db) -> In q (payments db) ->
                  (Payment.orderId p = Payment.orderId q
                   \/ Payment.transactionId p = Payment.transactionId q) ->
                  p = q)
  /\ (forall o o', In o (orders db) -> In o' (orders db) ->
                   Order.id o = Order.id o' -> o = o').
Proof.
  intros Hreach. apply reachable_books_ok in Hreach.
  destruct Hreach as (Hoid & Htx & Hpo & Hfk & _).
  split; [exact Hfk|]. split.
  - intros p q Hp Hq [H | H].
    + apply (NoDup_map_inj Payment.orderId (payments db)); auto.
    + apply (NoDup_map_inj Payment.transactionId (payments db)); auto.
  - intros o o' Ho Ho' H.
    apply (NoDup_map_inj Order.id (orders db)); auto.
Qed.

(** X13.  In every state the service reaches, a completed order has a
    completed payment: an order is only completed together with its payment,
    at creation. *)
Theorem X13_completed_order_is_paid db o :
  reachable env db ->
  In o (orders db) ->
  Order.status o = OrderStatus.completed ->
  exists p, In p (payments db)
            /\ Payment.orderId p = Order.id o
            /\ Payment.amount p = Order.totalAmount o
            /\ Payment.status p = PaymentStatus.completed.
Proof.
  intros Hreach Ho Hst. apply reachable_books_ok in Hreach.
  destruct Hreach as (Hoid & _ & _ & Hfk & Hdone).
  destruct (Hdone o Ho Hst) as (p & Hp & Hid & Hs).
  exists p. repeat split; auto.
  destruct (Hfk p Hp) as (o' & Ho' & Hid' & Hamt).
  assert (o' = o).
  { apply (NoDup_map_inj Order.id (orders db)); auto. congruence. }
  subst o'. auto.
Qed.

End Invariants.

(** ** The catalog *)

Lemma find_through_map {A B : Type} (f : B -> bool) (g : A -> B) (l : list A) :
  find f (map g l) = option_map g (find (fun x => f (g x)) l).
Proof.
  induction l as [|x l IH]; simpl; [reflexivity|].
  destruct (f (g x)); [reflexivity | exact IH].
Qed.

Lemma find_snoc {A : Type} (f : A -> bool) (l : list A) (x : A) :
  find f (l ++ [x])
  = match find f l with
    | Some y => Some y
    | None => if f x then Some x else None
    end.
Proof.
  induction l as [|y l IH]; simpl; [reflexivity|].
  destruct (f y); [reflexivity | exact IH].
Qed.

Lemma existsb_find {A : Type} (f : A -> bool) (l : list A) :
  existsb f l = true -> exists x, find f l = Some x.
Proof.
  induction l as [|y l IH]; simpl; [discriminate|].
  destruct (f y); simpl; eauto.
Qed.

Lemma existsb_false_find {A : Type} (f : A -> bool) (l : list A) :
  existsb f l = false -> find f l = None.
Proof.
  induction l as [|y l IH]; simpl; [reflexivity|].
  destruct (f y); simpl; [discriminate | exact IH].
Qed.

(** One row of an upsert: the product of its id is the row, the others are
    as they were. *)
Lemma upsertProduct_lookup rows r rows' :
  upsertProduct rows r = Some rows' ->
  forall id,
    productById id rows'
    = if (Product.id r =? id)%string then Some r else productById id rows.
Proof.
  unfold upsertProduct, productById.
  destruct (existsb _ rows); [discriminate|].
  destruct (existsb (fun p => (Product.id p =? Product.id r)%string) rows)
    eqn:Hex; intros [= <-] id.
  - rewrite find_map_stable.
    2:{ intros p. destruct (Product.id p =? Product.id r)%string; reflexivity. }
    destruct (Product.id r =? id)%string eqn:E.
    + apply String.eqb_eq in E. subst id.
      apply existsb_find in Hex. destruct Hex as [p Hp]. rewrite Hp. simpl.
      apply find_some in Hp. destruct Hp as [_ Hp]. rewrite Hp.
      apply String.eqb_eq in Hp. rewrite Hp. destruct r; reflexivity.
    + destruct (find _ rows) as [p|] eqn:Hp; [|reflexivity]. simpl.
      apply find_some in Hp. destruct Hp as [_ Hp].
      apply String.eqb_eq in Hp.
      destruct (Product.id p =? Product.id r)%string eqn:E'; [|reflexivity].
      apply String.eqb_eq in E'. apply String.eqb_neq in E. congruence.
  - rewrite find_snoc.
    destruct (Product.id r =? id)%string eqn:E.
    + apply String.eqb_eq in E. subst id.
      rewrite (existsb_false_find _ _ Hex). reflexivity.
    + destruct (find _ rows); reflexivity.
Qed.

Lemma upsertProductRows_lookup batch : forall rows rows',
  upsertProductRows rows batch = Some rows' ->
  forall id,
    productById id rows'
    = match find (fun r => (Product.id r =? id)%string) (rev batch) with
      | Some r => Some r
      | None => productById id rows
      end.
Proof.
  induction batch as [|r batch IH]; intros rows rows'; simpl.
  - intros [= <-] id. reflexivity.
  - destruct (upsertProduct rows r) as [rows1|] eqn:H1; [|discriminate].
    intros H id. rewrite (IH _ _ H id), find_snoc.
    destruct (find _ (rev batch)); [reflexivity|].
    rewrite (upsertProduct_lookup _ _ _ H1 id).
    destruct (Product.id r =? id)%string; reflexivity.
Qed.

Lemma upsertProductRows_app b1 : forall rows b2,
  upsertProductRows rows (b1 ++ b2)
  = match upsertProductRows rows b1 with
    | Some rows1 => upsertProductRows rows1 b2
    | None => None
    end.
Proof.
  induction b1 as [|r b1 IH]; intros rows b2; simpl; [reflexivity|].
  destruct (upsertProduct rows r); [apply IH | reflexivity].
Qed.

Lemma upsert_loop_rows batches : forall db db',
  for_each batches (fun b => exec_checked (upsertProducts b)) db
  = (db', inr tt) ->
  upsertProductRows (products db) (List.concat batches) = Some (products db').
Proof.
  induction batches as [|b bs IH]; intros db db'; simpl.
  - unfold ret. intros [= <-]. reflexivity.
  - unfold bind, exec_checked, upsertProducts. rewrite upsertProductRows_app.
    destruct (upsertProductRows (products db) b) as [rows|]; [|discriminate].
    intros H. apply IH in H. exact H.
Qed.

Lemma syncCatalog_lookup itemData db db' :
  syncCatalog itemData db = (db', inr tt) ->
  forall id,
    productById id (products db')
    = match find (fun item => (Item.jan_code item =? id)%string)
                 (rev itemData) with
      | Some item => Some {| Product.id := id;
                             Product.name := Item.name item;
                             Product.price := Item.price item |}
      | None => productById id (products db)
      end.
Proof.
  intros H id. apply syncCatalog_loop in H. apply upsert_loop_rows in H.
  rewrite concat_chunk in H by lia.
  rewrite (upsertProductRows_lookup _ _ _ H id), <- map_rev, find_through_map.
  simpl. destruct (find _ (rev itemData)) as [item|] eqn:Hitem; [|reflexivity].
  simpl. apply find_some in Hitem. destruct Hitem as [_ Hitem].
  apply String.eqb_eq in Hitem. unfold productOfItem. now rewrite Hitem.
Qed.


(** ** Orders, once created and when not *)

Lemma find_unused_transactionId (g : Payment.t -> bool) transactionId ps :
  ~ In transactionId (map Payment.transactionId ps) ->
  find (fun p => (Payment.transactionId p =? transactionId)%string && g p) ps
  = None.
Proof.
  intros Hnew. induction ps as [|p ps IH]; simpl; [reflexivity|].
  destruct (Payment.transactionId p =? transactionId)%string eqn:E.
  - apply String.eqb_eq in E. exfalso. apply Hnew. left. exact E.
  - simpl. apply IH. intros Hin. apply Hnew. right. exact Hin.
Qed.

Lemma selectPayment_unused_transactionId transactionId ps :
  ~ In transactionId (map Payment.transactionId ps) ->
  find (fun p => (Payment.transactionId p =? transactionId)%string) ps = None.
Proof.
  intros Hnew. induction ps as [|p ps IH]; simpl; [reflexivity|].
  destruct (Payment.transactionId p =? transactionId)%string eqn:E.
  - apply String.eqb_eq in E. exfalso. apply Hnew. left. exact E.
  - apply IH. intros Hin. apply Hnew. right. exact Hin.
Qed.

Lemma existsb_false_all {A : Type} (f : A -> bool) (l : list A) :
  existsb f l = false -> forall x, In x l -> f x = false.
Proof.
  induction l as [|y l IH]; simpl; [intros _ x []|].
  intros H x [<- | Hx]; apply orb_false_iff in H; destruct H; auto.
Qed.

Lemma NoDup_append {A : Type} (l1 l2 : list A) :
  NoDup l1 -> NoDup l2 -> (forall x, In x l1 -> ~ In x l2) ->
  NoDup (l1 ++ l2).
Proof.
  induction l1 as [|x l1 IH]; simpl; intros H1 H2 Hsep; [exact H2|].
  inversion H1 as [|? ? Hx H1']; subst. constructor.
  - intros Hin. apply in_app_or in Hin. destruct Hin as [Hin | Hin];
      [contradiction | apply (Hsep x); auto].
  - apply IH; auto.
Qed.

Lemma NoDup_map_snd {A B : Type} (b : B) (f : A -> string) (l : list A) :
  NoDup (map (fun x => (b, f x)) l) -> NoDup (map f l).
Proof.
  induction l as [|x l IH]; simpl; intros H; [constructor|].
  inversion H as [|? ? Hx H']; subst. constructor; [|auto].
  intros Hin. apply Hx. apply in_map_iff in Hin.
  destruct Hin as (y & Hy & Hin). apply in_map_iff. exists y.
  split; [now rewrite Hy | exact Hin].
Qed.

(** The rows one statement on [order_details] inserts share no
    [(order_id, product_id)], among themselves or with the rows of before. *)
Lemma insertOrderDetailRows_keys batch : forall rows last rows' last',
  insertOrderDetailRows (rows, last) batch = Some (rows', last') ->
  (forall v d, In v batch -> In d rows ->
               (OrderDetail.orderId d, OrderDetail.productId d)
               <> (v_orderId v, v_productId v))
  /\ NoDup (map (fun v => (v_orderId v, v_productId v)) batch).
Proof.
  induction batch as [|v vs IH]; intros rows last rows' last'; simpl.
  - intros _. split; [intros v d [] | constructor].
  - destruct (existsb _ rows) eqn:Hex; [discriminate|].
    intros H. apply IH in H. destruct H as [Hold Hnd].
    assert (Hv : forall d, In d rows ->
                   (OrderDetail.orderId d, OrderDetail.productId d)
                   <> (v_orderId v, v_productId v)).
    { intros d Hd [= H1 H2].
      pose proof (existsb_false_all _ _ Hex d Hd) as Hf. simpl in Hf.
      rewrite H1, H2, Z.eqb_refl, String.eqb_refl in Hf. discriminate. }
    split.
    + intros w d [<- | Hw] Hd; [auto|].
      apply Hold; [exact Hw | apply in_or_app; auto].
    + constructor; [|exact Hnd].
      intros Hin. apply in_map_iff in Hin. destruct Hin as (w & Hw & Hin).
      eapply (Hold w _ Hin).
      * apply in_or_app. right. left. reflexivity.
      * simpl. symmetry. exact Hw.
Qed.

Lemma detail_loop_keys batches : forall db db',
  for_each batches (fun b => exec_checked (insertOrderDetails b)) db
  = (db', inr tt) ->
  (forall v d, In v (List.concat batches) -> In d (orderDetails db) ->
               (OrderDetail.orderId d, OrderDetail.productId d)
               <> (v_orderId v, v_productId v))
  /\ NoDup (map (fun v => (v_orderId v, v_productId v))
                (List.concat batches)).
Proof.
  induction batches as [|b bs IH]; intros db db'; simpl.
  - intros _. split; [intros v d [] | constructor].
  - unfold bind, exec_checked, insertOrderDetails.
    destruct (insertOrderDetailRows (orderDetails db, seq_orderDetails db) b)
      as [[rows last]|] eqn:Hb; [|discriminate].
    intros H. apply IH in H. simpl in H. destruct H as [Hold Hnd].
    pose proof (insertOrderDetailRows_keys _ _ _ _ _ Hb) as [Hold1 Hnd1].
    apply insertOrderDetailRows_appends in Hb.
    destruct Hb as (new & -> & Hnew).
    split.
    + intros v d Hv Hd. apply in_app_or in Hv. destruct Hv as [Hv | Hv].
      * apply Hold1; assumption.
      * apply Hold; [exact Hv | apply in_or_app; auto].
    + rewrite map_app. apply NoDup_append; [exact Hnd1 | exact Hnd|].
      intros k Hk1 Hk2. apply in_map_iff in Hk1, Hk2.
      destruct Hk1 as (v & Hv & Hin1). destruct Hk2 as (w & Hw & Hin2).
      rewrite <- Hnew in Hin1. apply in_map_iff in Hin1.
      destruct Hin1 as (d & Hd & Hin1).
      apply (Hold w d Hin2); [apply in_or_app; right; exact Hin1|].
      rewrite Hw, <- Hv, <- Hd. reflexivity.
Qed.

Section Orders.

Variable env : Bindings.

(** X15.  The [transactionId] a created order answers finds its payment:
    the lookup by that identifier gives the payment just written, with the
    amount, method and status answered, and [GET /api/prepaid/pay/] answers
    them for a prepaid order, 404 "Payment not found" for a cash one, without
    writing. *)
Theorem X15_created_order_is_found_by_its_transactionId
    db fetched txnId requestData db' tid amount method status payUrl uid :
  handle env db (PostOrders fetched txnId requestData)
  = (db', Json (OrderBody tid amount method status payUrl) 200) ->
  (exists p,
      selectPaymentByTransactionId tid db' = Some p
      /\ Payment.transactionId p = tid
      /\ Payment.amount p = amount
      /\ Payment.method p = method
      /\ Payment.status p = status)
  /\ handle env db' (GetPrepaidPay (Some uid) tid)
     = (db', match method with
             | PaymentMethod.prepaid =>
                 Json (PrepaidBody tid amount status) 200
             | PaymentMethod.cash =>
                 Json (ErrorBody "Payment not found") 404
             end).
Proof.
  intros H.
  pose proof (post_orders_created _ _ _ _ _ _ _ _ _ _ _ H) as Hc.
  cbv zeta in Hc.
  destruct Hc as (itemData & new & _ & _ & -> & -> & Hm & _ & _ & Ho & _ & _
                  & Hp & _ & Hnew & _).
  pose proof (selectPayment_unused_transactionId txnId _ Hnew) as Hf1.
  pose proof (find_unused_transactionId
                (fun p => PaymentMethod.eqb (Payment.method p)
                                            PaymentMethod.prepaid)
                txnId _ Hnew) as Hf2.
  split.
  - eexists. unfold selectPaymentByTransactionId.
    rewrite Hp, find_snoc, Hf1. simpl. rewrite String.eqb_refl.
    repeat split.
  - unfold handle, handler, serve, get_prepaid_pay, bind, query,
      selectPrepaidPayment.
    rewrite Hp, find_snoc, Hf2. simpl. rewrite String.eqb_refl. simpl.
    destruct method; reflexivity.
Qed.

(** X16.  An order request is not all or nothing.  When the catalog knows
    every line and the total, a safe integer, is right but two lines are of
    one product, the order row is written, the details violate their unique
    key, and the request is answered 500: a pending order stays behind,
    without a payment. *)
Theorem X16_repeated_product_leaves_an_order_behind
    db itemData txnId requestData db1 :
  syncCatalog itemData db = (db1, inr tt) ->
  computeTotal itemData (CreateTransactionApiRequest.details requestData)
  = Some (Number.Finite (CreateTransactionApiRequest.totalAmount requestData)) ->
  Number.isSafeInteger (CreateTransactionApiRequest.totalAmount requestData)
  = true ->
  ~ NoDup (map Detail.productId
               (CreateTransactionApiRequest.details requestData)) ->
  let (db', r) := handle env db (PostOrders (Some itemData) txnId requestData)
  in
  r = InternalServerError
  /\ orders db'
     = orders db
       ++ [ {| Order.id := next_rowid (seq_orders db) (map Order.id (orders db));
               Order.totalAmount :=
                 CreateTransactionApiRequest.totalAmount requestData;
               Order.status := OrderStatus.pending |} ]
  /\ payments db' = payments db.
Proof.
  intros Hsync Htotal Hsafe Hdup.
  unfold handle, handler, serve, post_orders.
  unfold bind at 1. rewrite Hsync, Htotal. cbn [Number.strictEquals].
  rewrite Z.eqb_refl. cbn [negb].
  apply syncCatalog_frame in Hsync.
  unfold bind at 1, parse at 1, orderInsertSchema. rewrite Hsafe.
  cbn [fst snd].
  unfold bind at 1, returning at 1, insertOrder.
  unfold bind at 1, parse at 1. cbn [Order.id].
  destruct (parse_each _ (CreateTransactionApiRequest.details requestData))
    as [values|] eqn:Hvalues.
  2:{ rewrite Hsync. simpl. auto. }
  apply parse_details in Hvalues. subst values.
  unfold bind at 1.
  match goal with
  | |- context [for_each ?bs ?body ?d] =>
      destruct (for_each bs body d) as [db3 [r3|[]]] eqn:Hloop
  end.
  - pose proof (for_each_checked_throws _ _ _ _ _ Hloop) as ->.
    apply detail_loop_frame in Hloop. rewrite Hloop, Hsync. simpl. auto.
  - exfalso. apply Hdup. apply detail_loop_keys in Hloop.
    destruct Hloop as [_ Hnd]. rewrite concat_chunk in Hnd by lia.
    rewrite map_map in Hnd. simpl in Hnd.
    apply (NoDup_map_snd _ Detail.productId _ Hnd).
Qed.

(** X17.  A request that is refused writes nothing, but for the catalog an
    order request has upserted by then: after an answer with an error
    message (400, 401, 404) or the validation error, every table but
    [products] is as it was, and [products] too unless the request was an
    order. *)
Theorem X17_refused_requests_write_nothing db req db' r :
  handle env db req = (db', r) ->
  (exists message code, r = Json (ErrorBody message) code)
  \/ r = Json ValidationErrorBody 400 ->
  db' = with_products (products db') db
  /\ match req with
     | PostOrders _ _ _ => True
     | _ => db' = db
     end.
Proof.
  assert (Hid : forall d, d = with_products (products d) d).
  { intros d. symmetry. apply with_products_id. }
  intros H Hr.
  assert (Hnot : r <> InternalServerError).
  { destruct Hr as [(m & c & ->) | ->]; discriminate. }
  destruct req as [fetched txnId requestData | transactionId body
                  | transactionId | uid | uid transactionId
                  | uid transactionId now]; unfold handle, handler in H.
  - split; [|exact I]. apply post_orders_outcome in H. cbv zeta in H.
    destruct H as (_ & _ & [(Hdb & _) | [(Hr' & _) | H]]);
      [exact Hdb | contradiction |].
    destruct H as (itemData & db1 & new & _ & _ & _ & _ & _ & _ & Hr' & _).
    subst r. destruct Hr as [(m & c & Hr) | Hr]; discriminate Hr.
  - assert (db' = db); [|subst; auto].
    revert H. unfold serve, put_admin_prepaid_charge, bind, query, exec, ret.
    destruct (adminPrepaidChargeApiRequestSchema body);
      [|simpl; intros [= <- _]; reflexivity]. simpl.
    destruct (selectUserByUid _ db); simpl; intros [= <- <-];
      [contradiction | reflexivity].
  - assert (db' = db); [|subst; auto].
    revert H. unfold serve, get_payment, bind, query.
    destruct (selectPayment db); simpl; intros [= <- _]; reflexivity.
  - assert (db' = db); [|subst; auto].
    revert H. destruct uid as [uid|]; [|simpl; intros [= <- _]; reflexivity].
    unfold serve, get_profile, bind, query, returning_checked, insertUser, ret.
    destruct (selectUserByUid uid db); [intros [= <- _]; reflexivity|].
    destruct (existsb _ (users db)); simpl; intros [= <- <-];
      [contradiction|].
    destruct Hr as [(m & c & Hr) | Hr]; discriminate Hr.
  - assert (db' = db); [|subst; auto].
    revert H. destruct uid as [uid|]; [|simpl; intros [= <- _]; reflexivity].
    unfold serve, get_prepaid_pay, bind, query.
    destruct (selectPrepaidPayment transactionId db); simpl;
      intros [= <- _]; reflexivity.
  - assert (db' = db); [|subst; auto].
    pose proof (post_prepaid_pay_outcome env db uid transactionId now) as Ho.
    unfold handle, handler in Ho. rewrite H in Ho.
    destruct Ho as [(uid0 & p & u & _ & _ & _ & _ & _ & _ & ->) | (-> & _)];
      [contradiction | reflexivity].
Qed.

End Orders.

(** ** Profiles and charges at once *)

Section AtOnce.

Variable env : Bindings.

(** Alone, a profile request and a charge run as their handlers do. *)
Lemma profile_steps_alone db uid :
  let (db1, st1) := profile_step uid db ProfileStart in
  profile_step uid db1 st1
  = (fst (handle env db (GetProfile uid)),
     ProfileDone (snd (handle env db (GetProfile uid)))).
Proof.
  unfold handle, handler, serve, get_profile, bind, query, returning_checked,
    ret.
  destruct uid as [uid|]; [|reflexivity]. simpl.
  destruct (selectUserByUid uid db); [reflexivity|]. simpl.
  destruct (insertUser uid 0 db) as [[db' u]|]; reflexivity.
Qed.

Lemma charge_steps_alone db transactionId body :
  let req := {| charge_transactionId := transactionId;
                charge_body := body |} in
  let (db1, st1) := charge_step req db ChargeStart in
  let (db2, st2) := charge_step req db1 st1 in
  charge_step req db2 st2
  = (fst (handle env db (PutAdminPrepaidCharge transactionId body)),
     ChargeDone (snd (handle env db
                             (PutAdminPrepaidCharge transactionId body)))).
Proof.
  unfold handle, handler, serve, put_admin_prepaid_charge, bind, query, exec,
    ret. simpl.
  destruct (adminPrepaidChargeApiRequestSchema body); [|reflexivity]. simpl.
  destruct (selectUserByUid _ db); reflexivity.
Qed.

(** X18.  Two first requests for the profile of one new identity, served
    at once: when both look the user up before either inserts, the first
    insert creates the user and is answered 200, the second violates the
    unique [uid] and is answered 500; one user is created, with balance 0. *)
Theorem X18_two_first_profiles_at_once db uid :
  selectUserByUid uid db = None ->
  let u := {| User.id := next_rowid (seq_users db) (map User.id (users db));
              User.uid := uid; User.balance := 0 |} in
  interleaved (profile_step (Some uid)) (profile_step (Some uid))
              [First; Second; First; Second]
              (db, ProfileStart, ProfileStart)
  = (with_users (users db ++ [u]) (User.id u) db,
     ProfileDone (Json (ProfileBody (User.id u) uid 0) 200),
     ProfileDone InternalServerError).
Proof.
  intros Hnone u.
  assert (Hins : insertUser uid 0 db
                 = Some (with_users (users db ++ [u]) (User.id u) db, u)).
  { unfold insertUser. rewrite (find_none_existsb _ _ Hnone). reflexivity. }
  assert (Hins2 : insertUser uid 0
                    (with_users (users db ++ [u]) (User.id u) db) = None).
  { unfold insertUser. simpl. rewrite existsb_app. simpl.
    now rewrite String.eqb_refl, orb_true_r. }
  unfold interleaved. cbn [fold_left turn_of profile_step].
  rewrite Hnone. cbn [fold_left turn_of profile_step].
  rewrite Hnone. cbn [fold_left turn_of profile_step].
  rewrite Hins. cbn [fold_left turn_of profile_step].
  rewrite Hins2. reflexivity.
Qed.

Lemma charge_step_start db transactionId uid amount u :
  uid <> "" -> 0 < amount ->
  selectUserByUid uid db = Some u ->
  charge_step {| charge_transactionId := transactionId;
                 charge_body := chargeOf uid amount |} db ChargeStart
  = (db, ChargeHasUser u (User.balance u + amount)).
Proof.
  intros Huid Hpos Hu. unfold charge_step, chargeOf.
  unfold adminPrepaidChargeApiRequestSchema. simpl.
  apply String.eqb_neq in Huid. rewrite Huid.
  apply Z.ltb_lt in Hpos. rewrite Hpos. simpl. rewrite Hu. reflexivity.
Qed.

(** X19.  Two charges of one user served at once can lose one of them: when
    both read the balance before either writes it, the balance ends at the
    old balance plus the amount written last, not plus both (the balances
    being safe integers); both requests are answered 500 and the history is
    as it was. *)
Theorem X19_two_charges_at_once_lose_one
    db uid u transactionId1 transactionId2 amount1 amount2 :
  uid <> "" -> 0 < amount1 -> 0 < amount2 ->
  selectUserByUid uid db = Some u ->
  Number.isSafeInteger (User.balance u) = true ->
  Number.isSafeInteger (User.balance u + amount1) = true ->
  Number.isSafeInteger (User.balance u + amount2) = true ->
  let req1 := {| charge_transactionId := transactionId1;
                 charge_body := chargeOf uid amount1 |} in
  let req2 := {| charge_transactionId := transactionId2;
                 charge_body := chargeOf uid amount2 |} in
  let '(db', st1, st2) :=
    interleaved (charge_step req1) (charge_step req2)
                [First; Second; First; Second]
                (db, ChargeStart, ChargeStart) in
  st1 = ChargeDone InternalServerError
  /\ st2 = ChargeDone InternalServerError
  /\ selectUserByUid uid db'
     = Some (setBalance (User.balance u + amount2) u)
  /\ transactionHistory db' = transactionHistory db.
Proof.
  intros Huid H1 H2 Hu _ _ _ req1 req2.
  unfold interleaved, req1, req2. cbn [fold_left turn_of].
  rewrite (charge_step_start db transactionId1 uid amount1 u) by assumption.
  cbn [fold_left turn_of].
  rewrite (charge_step_start db transactionId2 uid amount2 u) by assumption.
  simpl.
  split; [reflexivity|]. split; [reflexivity|]. split; [|reflexivity].
  pose proof (selectUserByUid_updateUserBalanceById
                uid (User.balance u + amount1) db u Hu) as Hu1.
  exact (selectUserByUid_updateUserBalanceById
           uid (User.balance u + amount2) _ _ Hu1).
Qed.

End AtOnce.

Section OrderLines.

Variable env : Bindings.

(** X20.  A created order is made of catalog lines: every line of the
    request has the id and the price of an entry of the fetched catalog,
    its product is in [products] afterwards, and the detail rows written
    are the lines of the request, in order, with their name, price and
    quantity, under the id of the new order. *)
Theorem X20_created_order_lines_are_catalog_lines
    db itemData txnId requestData db' tid amount method status payUrl :
  handle env db (PostOrders (Some itemData) txnId requestData)
  = (db', Json (OrderBody tid amount method status payUrl) 200) ->
  Forall (fun detail =>
            (exists item, In item itemData
                          /\ Item.jan_code item = Detail.productId detail
                          /\ Item.price item = Detail.price detail)
            /\ exists p, productById (Detail.productId detail) (products db')
                         = Some p)
         (CreateTransactionApiRequest.details requestData)
  /\ exists newDetails,
       orderDetails db' = orderDetails db ++ newDetails
       /\ map valuesOf newDetails
          = map (detailValues
                   (next_rowid (seq_orders db) (map Order.id (orders db))))
                (CreateTransactionApiRequest.details requestData).
Proof.
  intros H.
  pose proof (post_orders_created _ _ _ _ _ _ _ _ _ _ _ H) as Hc.
  cbv zeta in Hc.
  destruct Hc as (itemData' & new & [= <-] & Hsum & _ & _ & _ & _ & _ & _
                  & Hd & Hvals & _ & _ & _ & db1 & Hsync & Hp).
  split; [|eauto].
  apply Forall_forall. intros detail Hin.
  destruct (findItem itemData detail) as [item|] eqn:Hitem.
  2:{ rewrite (computeTotal_unknown _ _ _ Hin Hitem) in Hsum. discriminate. }
  pose proof (findItem_price _ _ _ Hitem) as [Hid Hprice].
  assert (Hitem_in : In item itemData).
  { unfold findItem in Hitem. apply find_some in Hitem. tauto. }
  split; [eauto|].
  rewrite Hp, (syncCatalog_lookup _ _ _ Hsync).
  destruct (find _ (rev itemData)) as [last|] eqn:Hlast; [eauto|].
  exfalso. apply in_rev in Hitem_in.
  pose proof (find_none _ _ Hlast item Hitem_in) as Hf. simpl in Hf.
  rewrite Hid, String.eqb_refl in Hf. discriminate.
Qed.

End OrderLines.

(** ** More of the code, on the examples *)

Lemma dbCash_reachable : reachable shop dbCash.
Proof. apply run_reachable. constructor. Qed.

Lemma dbShort_reachable : reachable shop dbShort.
Proof. apply run_reachable. constructor. Qed.

(** X10.  No request writes a history row: the [parse] of the history
    values throws in the two handlers that would insert one.  So in every
    state the service reaches the history is empty, whatever the balances:
    after a prepaid order, a first profile and a charge of 300, the user
    has 300 and the history no row. *)
Theorem X10_history_is_never_written :
  (forall env db req,
      transactionHistory (fst (handle env db req)) = transactionHistory db)
  /\ (forall env db, reachable env db -> transactionHistory db = [])
  /\ reachable shop dbShort
  /\ users dbShort
     = [ {| User.id := 1; User.uid := "u1"; User.balance := 300 |} ]
  /\ transactionHistory dbShort = [].
Proof.
  split; [exact handle_keeps_history|].
  split; [exact reachable_no_history|].
  split; [exact dbShort_reachable|].
  split; reflexivity.
Qed.

Lemma X2_key_unset_witness :
  post_orders_route keysUnset shop None (Some catalog) "t1"
                    (orderOf [tea 500 2] 1000 PaymentMethod.cash) emptyDb
  = (dbCash,
     Served (Json (OrderBody "t1" 1000 PaymentMethod.cash
                             PaymentStatus.completed None) 200))
  /\ put_admin_prepaid_charge_route keysUnset None "c1" (chargeOf "u1" 500)
                                    emptyDb
     = (emptyDb, Refused "Unauthorized" 401).
Proof.
  destruct (X2_api_key_routes keysUnset shop emptyDb (Some catalog) "t1"
              (orderOf [tea 500 2] 1000 PaymentMethod.cash)
              "c1" (chargeOf "u1" 500))
    as (_ & Hadmin & Hserved & _).
  split.
  - rewrite (proj1 (Hserved None eq_refl)). reflexivity.
  - apply Hadmin. simpl. discriminate.
Defined.


Lemma X5_charge_witness :
  handle shop dbShort (PutAdminPrepaidCharge "c2" (chargeOf "u1" 200))
  = (updateUserBalanceById 1 500 dbShort, InternalServerError).
Proof.
  generalize
    (X5_charge_credits_and_is_answered_500
       shop dbShort "c2" "u1" 200
       {| User.id := 1; User.uid := "u1"; User.balance := 300 |}
       ltac:(discriminate) ltac:(lia) eq_refl eq_refl eq_refl).
  destruct (handle shop dbShort _) as [db' r].
  intros (-> & -> & _). reflexivity.
Defined.

Lemma X6_charge_twice_witness :
  snd (run shop dbShort [PutAdminPrepaidCharge "c2" (chargeOf "u1" 200);
                         PutAdminPrepaidCharge "c2" (chargeOf "u1" 200)])
  = [InternalServerError; InternalServerError]
  /\ selectUserByUid
       "u1" (fst (run shop dbShort
                      [PutAdminPrepaidCharge "c2" (chargeOf "u1" 200);
                       PutAdminPrepaidCharge "c2" (chargeOf "u1" 200)]))
     = Some {| User.id := 1; User.uid := "u1"; User.balance := 700 |}.
Proof.
  generalize
    (X6_charge_twice_credits_twice
       shop dbShort "c2" "u1" 200
       {| User.id := 1; User.uid := "u1"; User.balance := 300 |}
       ltac:(discriminate) ltac:(lia) eq_refl eq_refl eq_refl).
  destruct (run shop dbShort _) as [db' rs].
  intros (-> & H & _). split; [reflexivity | exact H].
Defined.

Lemma X7_credit_then_debit_witness :
  selectUserByUid "u1"
    (fst (run shop dbTwoOrders
              [PutAdminPrepaidCharge "c2" (chargeOf "u1" 500);
               PostPrepaidPay (Some "u1") "t1" 1700000000]))
  = Some {| User.id := 1; User.uid := "u1"; User.balance := 500 |}.
Proof.
  generalize
    (X7_credit_then_debit_restores_the_balance
       shop dbTwoOrders "c2" "u1" 500
       {| User.id := 1; User.uid := "u1"; User.balance := 500 |}
       "t1" 1700000000
       {| Payment.id := 1; Payment.orderId := 1; Payment.userId := None;
          Payment.transactionId := "t1"; Payment.amount := 500;
          Payment.method := PaymentMethod.prepaid;
          Payment.status := PaymentStatus.pending;
          Payment.paidAt := None |}
       ltac:(discriminate) ltac:(lia) eq_refl ltac:(simpl; lia) eq_refl
       eq_refl eq_refl eq_refl eq_refl).
  destruct (run shop dbTwoOrders _) as [db' rs].
  intros (_ & H & _). exact H.
Defined.


Lemma X12_one_payment_witness :
  (forall p, In p (payments dbTwoOrders) ->
             exists o, In o (orders dbTwoOrders)
                       /\ Order.id o = Payment.orderId p
                       /\ Order.totalAmount o = Payment.amount p)
  /\ (forall p q, In p (payments dbTwoOrders) -> In q (payments dbTwoOrders) ->
                  (Payment.orderId p = Payment.orderId q
                   \/ Payment.transactionId p = Payment.transactionId q) ->
                  p = q)
  /\ (forall o o', In o (orders dbTwoOrders) -> In o' (orders dbTwoOrders) ->
                   Order.id o = Order.id o' -> o = o').
Proof. exact (X12_one_payment_per_order shop dbTwoOrders
                dbTwoOrders_reachable). Defined.

Lemma X13_completed_order_witness :
  exists p, In p (payments dbCash)
            /\ Payment.orderId p = 1
            /\ Payment.amount p = 1000
            /\ Payment.status p = PaymentStatus.completed.
Proof.
  exact (X13_completed_order_is_paid
           shop dbCash
           {| Order.id := 1; Order.totalAmount := 1000;
              Order.status := OrderStatus.completed |}
           dbCash_reachable ltac:(left; reflexivity) eq_refl).
Defined.


Lemma X15_created_order_witness :
  handle shop dbCash (GetPrepaidPay (Some "u1") "t1")
  = (dbCash, Json (ErrorBody "Payment not found") 404).
Proof.
  exact (proj2 (X15_created_order_is_found_by_its_transactionId
                  shop emptyDb (Some catalog) "t1"
                  (orderOf [tea 500 2] 1000 PaymentMethod.cash)
                  dbCash "t1" 1000 PaymentMethod.cash PaymentStatus.completed
                  None "u1" eq_refl)).
Defined.

(** Past the safe integers the order schema refuses the total before the
    order row is written: two teas at [2 ^ 53 - 1], declared at their sum,
    are answered 500 and leave no order. *)
Lemma repeated_product_past_the_safe_integers :
  computeTotal dearCatalog [dearTea 1; dearTea 1]
  = Some (Number.Finite 18014398509481982)
  /\ Number.isSafeInteger 18014398509481982 = false
  /\ handle shop emptyDb
       (PostOrders (Some dearCatalog) "t1"
                   (orderOf [dearTea 1; dearTea 1] 18014398509481982
                            PaymentMethod.prepaid))
     = (with_products (map productOfItem dearCatalog) emptyDb,
        InternalServerError).
Proof.
  repeat split; vm_compute; reflexivity.
Qed.

Lemma X16_repeated_product_witness :
  snd (handle shop emptyDb
         (PostOrders (Some catalog) "t1"
                     (orderOf [tea 500 1; tea 500 1] 1000
                              PaymentMethod.prepaid)))
  = InternalServerError.
Proof.
  generalize
    (X16_repeated_product_leaves_an_order_behind
       shop emptyDb catalog "t1"
       (orderOf [tea 500 1; tea 500 1] 1000 PaymentMethod.prepaid)
       (with_products [ {| Product.id := "P1"; Product.name := "Tea";
                           Product.price := 500 |} ] emptyDb)
       eq_refl eq_refl eq_refl
       ltac:(simpl; intros H; inversion H as [|? ? Hx _]; apply Hx; left;
             reflexivity)).
  destruct (handle shop emptyDb _) as [db' r].
  intros (-> & _). reflexivity.
Defined.

Lemma X17_refused_request_witness :
  dbShort = with_products (products dbShort) dbShort /\ dbShort = dbShort.
Proof.
  exact (X17_refused_requests_write_nothing
           shop dbShort (PostPrepaidPay (Some "u1") "t1" 1700000000)
           dbShort (Json (ErrorBody "Insufficient balance") 400)
           eq_refl
           (or_introl (ex_intro _ "Insufficient balance"
                        (ex_intro _ 400 eq_refl)))).
Defined.

Lemma X18_two_first_profiles_witness :
  interleaved (profile_step (Some "u1")) (profile_step (Some "u1"))
              [First; Second; First; Second]
              (emptyDb, ProfileStart, ProfileStart)
  = (with_users [ {| User.id := 1; User.uid := "u1"; User.balance := 0 |} ]
                1 emptyDb,
     ProfileDone (Json (ProfileBody 1 "u1" 0) 200),
     ProfileDone InternalServerError).
Proof.
  exact (X18_two_first_profiles_at_once emptyDb "u1" eq_refl).
Defined.

Lemma X19_two_charges_witness :
  selectUserByUid "u1"
    (fst (fst (interleaved
                 (charge_step {| charge_transactionId := "c2";
                                 charge_body := chargeOf "u1" 100 |})
                 (charge_step {| charge_transactionId := "c3";
                                 charge_body := chargeOf "u1" 200 |})
                 [First; Second; First; Second]
                 (dbShort, ChargeStart, ChargeStart))))
  = Some {| User.id := 1; User.uid := "u1"; User.balance := 500 |}.
Proof.
  generalize
    (X19_two_charges_at_once_lose_one
       dbShort "u1"
       {| User.id := 1; User.uid := "u1"; User.balance := 300 |}
       "c2" "c3" 100 200
       ltac:(discriminate) ltac:(lia) ltac:(lia) eq_refl
       eq_refl eq_refl eq_refl).
  cbv zeta.
  destruct (interleaved _ _ _ _) as [[db' st1] st2].
  intros (_ & _ & H & _). exact H.
Defined.

Lemma X20_order_lines_witness :
  exists newDetails,
    orderDetails dbCash = [] ++ newDetails
    /\ map valuesOf newDetails = map (detailValues 1) [tea 500 2].
Proof.
  exact (proj2 (X20_created_order_lines_are_catalog_lines
                  shop emptyDb catalog "t1"
                  (orderOf [tea 500 2] 1000 PaymentMethod.cash)
                  dbCash "t1" 1000 PaymentMethod.cash PaymentStatus.completed
                  None eq_refl)).
Defined.
